(** * Copy-image plugin: the resolver, the normalizer and the gesture dispatcher

    A shallow embedding of [src/main.ts] (class [CopyImagePlugin], the version
    with the SVG path and the [svgToPngScale] setting) and the properties the
    specification states about it.

    - JavaScript strings are sequences of UTF-16 code units: [list N].
    - The regular expression of [handleCommand] is kept as data and run by a
      backtracking matcher in continuation-passing style, the way ECMAScript
      defines matching (greedy and lazy quantifiers, one capture group).
    - Asynchronous code is a writer/exception monad [M]: the effects on the
      host (notices, fetches, clipboard writes, object URLs) are logged in
      order, and a promise settles as [Resolved] or [Rejected].
    - The host (network, decoder, canvas, clipboard, focus) is a record
      [World] of answers, over which every theorem quantifies. *)

From Stdlib Require Import List NArith ZArith Bool String Ascii Lia.
Import ListNotations.

Set Implicit Arguments.

(* ================================================================== *)
(** ** JavaScript strings *)

Module JsString.

Definition t := list N.

(** A string literal of the source, as code units. *)
Definition js (s : string) : t :=
  map (fun a => N_of_ascii a) (list_ascii_of_string s).

Fixpoint eqb (a b : t) : bool :=
  match a, b with
  | [], [] => true
  | x :: a', y :: b' => N.eqb x y && eqb a' b'
  | _, _ => false
  end.

Fixpoint startsWith (pat s : t) : bool :=
  match pat, s with
  | [], _ => true
  | p :: pat', c :: s' => N.eqb p c && startsWith pat' s'
  | _ :: _, [] => false
  end.

(** [s.includes(pat)] *)
Fixpoint includes (pat s : t) : bool :=
  match s with
  | [] => startsWith pat []
  | _ :: s' => startsWith pat s || includes pat s'
  end.

(** [s.split(sep)] for a separator of one code unit, which is what the
    source uses; the result is never empty. *)
Fixpoint split (sep : N) (s : t) : list t :=
  match s with
  | [] => [[]]
  | c :: s' =>
      if N.eqb c sep then [] :: split sep s'
      else match split sep s' with
           | h :: tl => (c :: h) :: tl
           | [] => [[c]]
           end
  end.

(** [arr.pop()]: [None] is [undefined]. [arr[0]] on the result of [split],
    which is never empty, is [hd []]. *)
Fixpoint pop (l : list t) : option t :=
  match l with
  | [] => None
  | [x] => Some x
  | _ :: l' => pop l'
  end.

(** [arr.includes(x)] on an array of strings. *)
Definition arrayIncludes (l : list t) (x : t) : bool := existsb (eqb x) l.

(** [!x] for [x : string | undefined]. *)
Definition falsy (x : option t) : bool :=
  match x with
  | None => true
  | Some [] => true
  | Some (_ :: _) => false
  end.

End JsString.

Import JsString.

(* ================================================================== *)
(** ** Regular expressions (the fragment the source uses) *)

Module RegExp.

Inductive atom :=
| Lit (c : N)      (* a literal or escaped character *)
| Dot.             (* [.], without the [s] flag *)

(** LineTerminator: LF, CR, LS, PS. *)
Definition lineTerminator (c : N) : bool :=
  N.eqb c 10 || N.eqb c 13 || N.eqb c 8232 || N.eqb c 8233.

Definition atomMatches (a : atom) (c : N) : bool :=
  match a with
  | Lit d => N.eqb d c
  | Dot => negb (lineTerminator c)
  end.

Inductive regex :=
| Atom (a : atom)
| Star (a : atom)          (* [a*], greedy *)
| LazyStar (a : atom)      (* [a*?] *)
| Seq (r1 r2 : regex)
| Group (r : regex).       (* the capture group, [$1] *)

Section Matcher.
Variable R : Type.

(** Greedy: the longest run first, then shorter ones. *)
Fixpoint starGreedy (p : N -> bool) (s : t) (k : t -> option R) : option R :=
  match s with
  | c :: s' =>
      if p c then
        match starGreedy p s' k with
        | Some r => Some r
        | None => k s
        end
      else k s
  | [] => k []
  end.

(** Lazy: the empty run first, then longer ones. *)
Fixpoint starLazy (p : N -> bool) (s : t) (k : t -> option R) : option R :=
  match k s with
  | Some r => Some r
  | None =>
      match s with
      | c :: s' => if p c then starLazy p s' k else None
      | [] => None
      end
  end.

(** [matcher r s cap k]: match [r] at the head of [s], then continue with
    [k] on what is left; [cap] is the capture so far. *)
Fixpoint matcher (r : regex) (s : t) (cap : option t)
         (k : t -> option t -> option R) : option R :=
  match r with
  | Atom a =>
      match s with
      | c :: s' => if atomMatches a c then k s' cap else None
      | [] => None
      end
  | Star a => starGreedy (atomMatches a) s (fun s' => k s' cap)
  | LazyStar a => starLazy (atomMatches a) s (fun s' => k s' cap)
  | Seq r1 r2 => matcher r1 s cap (fun s' cap' => matcher r2 s' cap' k)
  | Group r1 =>
      matcher r1 s cap
              (fun s' _ => k s' (Some (firstn (List.length s - List.length s') s)))
  end.
End Matcher.

(** A match anchored at the head of [s]: what follows the match, and [$1]. *)
Definition matchAt (r : regex) (s : t) : option (t * option t) :=
  matcher r s None (fun s' cap => Some (s', cap)).

(** The first match, trying the start positions from left to right:
    the text before it, the text after it, and [$1]. *)
Fixpoint exec (r : regex) (s : t) : option (t * t * option t) :=
  match matchAt r s with
  | Some (rest, cap) => Some ([], rest, cap)
  | None =>
      match s with
      | c :: s' =>
          match exec r s' with
          | Some (before, rest, cap) => Some (c :: before, rest, cap)
          | None => None
          end
      | [] => None
      end
  end.

(** [s.replace(r, '$1')] for a regex without the [g] flag: the first match
    is replaced by the capture, an unmatched string is returned as it is. *)
Definition replaceWithGroup1 (r : regex) (s : t) : t :=
  match exec r s with
  | Some (before, rest, cap) =>
      before ++ match cap with Some c => c | None => [] end ++ rest
  | None => s
  end.

End RegExp.

Import RegExp.

(* ================================================================== *)
(** ** The command-path resolver (lines 74-95 of [handleCommand]) *)

Definition ch (s : string) : N :=
  match js s with
  | c :: _ => c
  | [] => 0%N
  end.

Definition embedOpen : t := Eval cbv in js "![[".
Definition embedClose : t := Eval cbv in js "]]".
Definition pipe : N := Eval cbv in ch "|".
Definition dot : N := Eval cbv in ch ".".
Definition closeBracket : N := Eval cbv in ch "]".

(** [/.*!\[\[(.*?)\]\].*/]: the leading [.*], then the rest.
    33 is [!], 91 is the opening bracket, 93 the closing one. *)
Definition embedBody : regex :=
  Seq (Atom (Lit 33)) (Seq (Atom (Lit 91)) (Seq (Atom (Lit 91))
  (Seq (Group (LazyStar Dot))
  (Seq (Atom (Lit 93)) (Seq (Atom (Lit 93))
  (Star Dot)))))).

Definition embedRegex : regex := Seq (Star Dot) embedBody.

Definition supportedExtensions : list t :=
  Eval cbv in map js ["bmp"; "gif"; "jpeg"; "jpg"; "png"; "tiff"]%string.

(** The value of [fileNane] at line 87, after the alias is cut off;
    [None] when one of the two early returns before it is taken. *)
Definition extractFileName (line : t) : option t :=
  if negb (includes embedOpen line) then None
  else
    let fileNane := replaceWithGroup1 embedRegex line in
    if eqb fileNane [] then None
    else if includes [pipe] fileNane
         then Some (hd [] (split pipe fileNane))
         else Some fileNane.

(** [fileNane.split('.').pop()] *)
Definition extensionOf (fileNane : t) : option t := pop (split dot fileNane).

(** Lines 87-95, the extension test: [Some name] when the line resolves to
    a file name with a supported extension. *)
Definition resolveLine (line : t) : option t :=
  match extractFileName line with
  | None => None
  | Some fileNane =>
      let ext := extensionOf fileNane in
      if falsy ext then None
      else
        match ext with
        | Some e =>
            if negb (arrayIncludes supportedExtensions e) then None
            else Some fileNane
        | None => None
        end
  end.

(* ================================================================== *)
(** ** The host: blobs, elements, files, effects *)

Record Blob := { blobType : t; blobBytes : list N }.

Record ImgElement := { src : t }.

(** [evt.target]: an [HTMLImageElement] with tag [IMG], or something else. *)
Inductive Target :=
| ImgTarget (img : ImgElement)
| OtherTarget.

Record TFile := { fileName : t; filePath : t }.

(** A thrown value: an [Error] object, or [undefined] (a bare [reject()]). *)
Inductive Thrown :=
| ErrorObject (message : t)
| Undefined.

Inductive Effect :=
| Notice (msg : t)                          (* new Notice(msg) *)
| Fetch (url : t)                           (* fetch(url) *)
| ClipboardWrite (mime : t) (payload : Blob)
    (* navigator.clipboard.write([new ClipboardItem({[mime]: payload})]) *)
| CreateObjectURL (b : Blob) (url : t)
| RevokeObjectURL (url : t)
| JimpRead (url : t)
| DrawImage (width height : Z)              (* on a canvas of that size *)
| WindowOpen
| UnhandledRejection (e : Thrown).          (* a rejected promise nobody awaits *)

(** The answers of the host to the calls the plugin makes. *)
Record World := {
  getResourcePath : t -> t;
  fetchBlob : t -> t + Blob;        (* [inl msg]: fetch or response.blob() rejects *)
  createObjectURL : Blob -> t;
  jimpToPng : t -> t + list N;      (* Jimp.read(url), then getBuffer("image/png") *)
  clipboardWrite : Blob -> option t;   (* [Some msg]: the write rejects *)
  imageLoad : t -> option (Z * Z);  (* onload with (img.width, img.height), or onerror *)
  canvasContext2d : bool;           (* getContext('2d') is not null *)
  canvasToBlob : Z -> Z -> option (list N);   (* the bytes toBlob hands over, or null *)
  hasFocusInitially : bool;         (* document.hasFocus() in trySetFocus *)
  windowOpen : bool;                (* window.open(...) is not null *)
  hasFocus : Z -> bool              (* document.hasFocus() after that many ms of waiting *)
}.

(* ================================================================== *)
(** ** Asynchronous code: a log of effects and a settled promise *)

Inductive Settled (A : Type) :=
| Resolved (a : A)
| Rejected (e : Thrown).

Arguments Resolved {A} a.
Arguments Rejected {A} e.

Definition M (A : Type) : Type := list Effect * Settled A.

Definition ret {A} (a : A) : M A := ([], Resolved a).

Definition bind {A B} (m : M A) (f : A -> M B) : M B :=
  match m with
  | (tr, Resolved a) => let (tr', r) := f a in (tr ++ tr', r)
  | (tr, Rejected e) => (tr, Rejected e)
  end.

Definition emit (e : Effect) : M unit := ([e], Resolved tt).

Definition throw {A} (e : Thrown) : M A := ([], Rejected e).

(** [try { m } catch (e) { h e }] *)
Definition tryCatch {A} (m : M A) (h : Thrown -> M A) : M A :=
  match m with
  | (tr, Rejected e) => let (tr', r) := h e in (tr ++ tr', r)
  | (tr, Resolved a) => (tr, Resolved a)
  end.

(** A call to an async function whose promise is dropped: its effects
    happen, its rejection is reported by the host as unhandled. The effects
    of a detached call are logged where the call is made; the interleaving
    of several pending calls is not modelled. *)
Definition detach (m : M unit) : M unit :=
  match m with
  | (tr, Rejected e) => (tr ++ [UnhandledRejection e], Resolved tt)
  | (tr, Resolved _) => (tr, Resolved tt)
  end.

(** An event handler or timer callback called by the host. *)
Definition invoke (m : M unit) : list Effect := fst (detach m).

Definition trace {A} (m : M A) : list Effect := fst m.

Notation "x <- m ;; k" := (bind m (fun x => k))
  (at level 61, m at next level, right associativity).
Notation "m ;;; k" := (bind m (fun _ => k))
  (at level 61, right associativity).

Definition await {A} (r : t + A) : M A :=
  match r with
  | inl msg => throw (ErrorObject msg)
  | inr a => ret a
  end.

Definition notice (s : string) : M unit := emit (Notice (js s)).

(** [Array.prototype.forEach] with an async callback: every promise is dropped. *)
Fixpoint forEachAsync {A} (f : A -> M unit) (l : list A) : M unit :=
  match l with
  | [] => ret tt
  | x :: l' => detach (f x) ;;; forEachAsync f l'
  end.

(* ================================================================== *)
(** ** The plugin *)

Definition pngType : t := Eval cbv in js "image/png".
Definition svgType : t := Eval cbv in js "image/svg+xml".

(** [touchTime], [targetImage] and [settings.svgToPngScale]. The scale is
    modelled for its integer values: the slider has limits 1 to 10 and
    step 1, and [loadSettings] takes a saved value as it is, also outside
    1 to 10. *)
Record Plugin := {
  touchTime : Z;
  targetImage : option ImgElement;
  svgToPngScale : Z
}.

Definition setTouchTime (p : Plugin) (v : Z) : Plugin :=
  {| touchTime := v; targetImage := targetImage p; svgToPngScale := svgToPngScale p |}.

Definition setTargetImage (p : Plugin) (v : option ImgElement) : Plugin :=
  {| touchTime := touchTime p; targetImage := v; svgToPngScale := svgToPngScale p |}.

(** [a || b] on numbers, for an integer [a]. *)
Definition orElse (a b : Z) : Z := if Z.eqb a 0 then b else a.

(** The conversion of a number to the IDL type [unsigned long] (no
    [EnforceRange], no [Clamp]), for an integer: modulo 2^32. *)
Definition toUnsignedLong (v : Z) : Z := (v mod 4294967296)%Z.

(** [canvas.width = v] and [canvas.height = v], then reading the property
    back. Both are [unsigned long] attributes that reflect a content
    attribute: the assigned number is converted, a converted value above
    2147483647 is replaced by the default of the attribute (300 for the
    width, 150 for the height), and the getter returns what was stored. *)
Definition storeUnsignedLong (default v : Z) : Z :=
  let u := toUnsignedLong v in
  if (u <=? 2147483647)%Z then u else default.

(** Lines 237-238 and 247: the [canvas.width] and [canvas.height] that
    [drawImage] reads back, for an image of the given [img.width] and
    [img.height]. The products are those of integers, which double
    arithmetic computes exactly up to 2^53 in absolute value. *)
Definition canvasSize (p : Plugin) (imgWidth imgHeight : Z) : Z * Z :=
  let scale := svgToPngScale p in
  (storeUnsignedLong 300 (orElse imgWidth 300 * scale),
   storeUnsignedLong 150 (orElse imgHeight 300 * scale))%Z.

Arguments canvasSize : simpl never.

Section Handlers.
Variable w : World.

Definition copyPngToClipboard (imageBlob : Blob) : M unit :=
  tryCatch
    (emit (ClipboardWrite (blobType imageBlob) imageBlob) ;;;
     match clipboardWrite w imageBlob with
     | Some msg => throw (ErrorObject msg)
     | None => ret tt
     end ;;;
     notice "Image copied to clipboard!")
    (fun _ => notice "Failed to copy...").

Definition copyNonPngToClipboard (imageBlob : Blob) : M unit :=
  let url := createObjectURL w imageBlob in
  emit (CreateObjectURL imageBlob url) ;;;
  emit (JimpRead url) ;;;
  buffer <- await (jimpToPng w url) ;;
  let blob := {| blobType := pngType; blobBytes := buffer |} in
  detach (copyPngToClipboard blob).

(** The callback given to [canvas.toBlob(..., 'image/png')]. *)
Definition toBlobCallback (url : t) (pngBlob : option Blob) : M unit :=
  match pngBlob with
  | Some b => copyPngToClipboard b
  | None => notice "Failed to convert SVG to PNG."
  end ;;;
  emit (RevokeObjectURL url).

Definition copySvgToClipboard (p : Plugin) (imageBlob : Blob) : M unit :=
  tryCatch
    (let url := createObjectURL w imageBlob in
     emit (CreateObjectURL imageBlob url) ;;;
     img <- match imageLoad w url with
            | Some dims => ret dims
            | None =>
                notice "Failed to load SVG image for conversion." ;;;
                throw Undefined
            end ;;
     let (cw, chh) := canvasSize p (fst img) (snd img) in
     if negb (canvasContext2d w) then
       notice "Could not create canvas context."
     else
       emit (DrawImage cw chh) ;;;
       detach (toBlobCallback url
                 (option_map (fun bytes => {| blobType := pngType; blobBytes := bytes |})
                             (canvasToBlob w cw chh))))
    (fun _ => notice "Error during SVG to PNG conversion.").

(** [target.src] as the argument of [fetch]: [undefined] becomes a string. *)
Definition srcOf (target : Target) : t :=
  match target with
  | ImgTarget img => src img
  | OtherTarget => js "undefined"
  end.

Definition copyImageToClipboard (p : Plugin) (evt : option Target)
           (targetImage : option ImgElement) : M unit :=
  let target :=
    match evt with
    | Some tg => Some tg
    | None => option_map ImgTarget targetImage
    end in
  match target with
  | None => ret tt
  | Some target =>
      emit (Fetch (srcOf target)) ;;;
      imageBlob <- await (fetchBlob w (srcOf target)) ;;
      if eqb (blobType imageBlob) pngType then copyPngToClipboard imageBlob
      else if eqb (blobType imageBlob) svgType then copySvgToClipboard p imageBlob
      else copyNonPngToClipboard imageBlob
  end.

(** The callback of [forEach] in [handleCommand]. *)
Definition copyVaultFile (fileNane : t) (file : TFile) : M unit :=
  if eqb (fileName file) fileNane then
    notice "Copying the image..." ;;;
    let url := getResourcePath w (filePath file) in
    emit (Fetch url) ;;;
    imageBlob <- await (fetchBlob w url) ;;
    if eqb (blobType imageBlob) pngType then copyPngToClipboard imageBlob
    else copyNonPngToClipboard imageBlob
  else ret tt.

(** [line] is [editor.getLine(editor.getCursor().line)], [files] is
    [this.app.vault.getFiles()]. *)
Definition handleCommand (files : list TFile) (line : t) : M unit :=
  if negb (includes embedOpen line) then
    notice "Not an image file or not supported..."
  else
    let fileNane := replaceWithGroup1 embedRegex line in
    if eqb fileNane [] then
      notice "Not an image file or not supported..."
    else
      let fileNane :=
        if includes [pipe] fileNane then hd [] (split pipe fileNane)
        else fileNane in
      let ext := pop (split dot fileNane) in
      if falsy ext then
        notice "Not an image file or not supported..."
      else if negb (match ext with
                    | Some e => arrayIncludes supportedExtensions e
                    | None => false
                    end) then
        notice "Not an image file or not supported..."
      else
        forEachAsync (copyVaultFile fileNane) files.

Definition trySetFocus : M unit :=
  if negb (hasFocusInitially w) then
    emit WindowOpen ;;;
    if windowOpen w then ret tt
    else throw (ErrorObject (js "Failed to focus Obsidian app."))
  else ret tt.

(** The loop of [waitForFocus]: [timeElapsed] when the loop is left.
    Forty rounds of 50 ms reach 2000. *)
Fixpoint waitLoop (rounds : nat) (timeElapsed : Z) : Z :=
  match rounds with
  | O => timeElapsed
  | S n =>
      if negb (hasFocus w timeElapsed) && (timeElapsed <? 2000)%Z
      then waitLoop n (timeElapsed + 50)%Z
      else timeElapsed
  end.

Definition waitForFocus : M unit :=
  let timeElapsed := waitLoop 40 0 in
  if negb (hasFocus w timeElapsed) then
    throw (ErrorObject
             (js "Cannot copy image to clipboard without Obsidian app focused."))
  else ret tt.

(** [new Notice(e.message)]: reading [message] off [undefined] throws. *)
Definition noticeMessage (e : Thrown) : M unit :=
  match e with
  | ErrorObject msg => emit (Notice msg)
  | Undefined =>
      throw (ErrorObject (js "Cannot read properties of undefined (reading 'message')"))
  end.

Definition handleMenuOption (p : Plugin) : M unit :=
  tryCatch
    (notice "Copying the image..." ;;;
     trySetFocus ;;;
     waitForFocus ;;;
     copyImageToClipboard p None (targetImage p))
    noticeMessage.

Definition isImage (evt : Target) : bool :=
  match evt with
  | ImgTarget _ => true
  | OtherTarget => false
  end.

(** [handleTouchStart]: the new fields, and the event captured by the
    callback it schedules with [setTimeout(..., 1000)], if any. [now] is
    [new Date().getTime()]. *)
Definition handleTouchStart (p : Plugin) (evt : Target) (now : Z)
  : Plugin * option Target :=
  if isImage evt then (setTouchTime p now, Some evt) else (p, None).

(** The callback scheduled by [handleTouchStart], run on the fields as
    they are when the timer fires. *)
Definition touchTimer (p : Plugin) (evt : Target) : M unit :=
  if negb (Z.eqb (touchTime p) 0) then
    notice "Copying the image..." ;;;
    copyImageToClipboard p (Some evt) None
  else ret tt.

Definition handleTouchMove (p : Plugin) (evt : Target) : Plugin :=
  if isImage evt then setTouchTime p 0 else p.

Definition handleContextMenu (p : Plugin) (evt : Target) : Plugin :=
  match evt with
  | ImgTarget img => setTargetImage p (Some img)
  | OtherTarget =>
      match targetImage p with
      | Some _ => setTargetImage p None
      | None => p
      end
  end.

(** *** The touch regime as an event loop *)

Inductive DomEvent :=
| TouchStart (evt : Target) (now : Z)
| TouchMove (evt : Target)
| TimerFires (n : nat).       (* the callback scheduled n-th, counting from 0 *)

Record Loop := {
  plugin : Plugin;
  timers : list Target;                 (* the callbacks scheduled so far *)
  ran : list (nat * list Effect)        (* the callbacks run, with their effects *)
}.

Definition step (st : Loop) (ev : DomEvent) : Loop :=
  match ev with
  | TouchStart evt now =>
      match handleTouchStart (plugin st) evt now with
      | (p', Some captured) =>
          {| plugin := p'; timers := timers st ++ [captured]; ran := ran st |}
      | (p', None) =>
          {| plugin := p'; timers := timers st; ran := ran st |}
      end
  | TouchMove evt =>
      {| plugin := handleTouchMove (plugin st) evt;
         timers := timers st; ran := ran st |}
  | TimerFires n =>
      match nth_error (timers st) n with
      | Some evt =>
          {| plugin := plugin st; timers := timers st;
             ran := ran st ++ [(n, invoke (touchTimer (plugin st) evt))] |}
      | None => st
      end
  end.

Definition run (st : Loop) (evs : list DomEvent) : Loop := fold_left step evs st.

End Handlers.

Definition initial (scale : Z) : Loop :=
  {| plugin := {| touchTime := 0; targetImage := None; svgToPngScale := scale |};
     timers := []; ran := [] |}.

(** The shape of a cursor line, for the statements below. *)

(** No code unit of [s] is a line terminator: [.] matches all of them. *)
Definition singleLine (s : t) : bool := forallb (atomMatches Dot) s.

(** Somewhere in [s] there is [![[], with []]] somewhere after it. *)
Fixpoint hasEmbed (s : t) : bool :=
  match s with
  | [] => false
  | _ :: s' => (startsWith embedOpen s && includes embedClose (skipn 3 s)) || hasEmbed s'
  end.

(** What stands between [![[] and []]]: a name, with or without an alias. *)
Definition embedText (name : t) (alias : option t) : t :=
  name ++ match alias with
          | Some a => pipe :: a
          | None => []
          end.


(** Every effect of a computation satisfies [P]. *)
Definition always (P : Effect -> Prop) {A} (m : M A) : Prop := Forall P (trace m).

Definition isUnhandled (e : Effect) : bool :=
  match e with
  | UnhandledRejection _ => true
  | _ => false
  end.

Definition isRevoke (e : Effect) : bool :=
  match e with
  | RevokeObjectURL _ => true
  | _ => false
  end.

Definition isNotice (e : Effect) : bool :=
  match e with
  | Notice _ => true
  | _ => false
  end.

(** A host for the examples: the window is focused and the clipboard
    accepts what it is given; the rest is as stated by the arguments. *)
Definition hostWith (fetched : t + Blob) (decoded : t + list N)
           (loaded : option (Z * Z)) (context2d : bool)
           (encoded : option (list N)) : World :=
  {| getResourcePath := fun path => js "app://local/" ++ path;
     fetchBlob := fun _ => fetched;
     createObjectURL := fun _ => js "blob:1";
     jimpToPng := fun _ => decoded;
     clipboardWrite := fun _ => None;
     imageLoad := fun _ => loaded;
     canvasContext2d := context2d;
     canvasToBlob := fun _ _ => encoded;
     hasFocusInitially := true;
     windowOpen := true;
     hasFocus := fun _ => true |}.

Definition blobOf (mime : string) (bytes : list N) : Blob :=
  {| blobType := js mime; blobBytes := bytes |}.

Definition pluginWith (time scale : Z) : Plugin :=
  {| touchTime := time; targetImage := None; svgToPngScale := scale |}.

(** No touch-start over an image element among the events. *)
Definition noImageTouchStart (evs : list DomEvent) : bool :=
  forallb (fun ev => match ev with
                     | TouchStart evt _ => negb (isImage evt)
                     | _ => true
                     end) evs.

(** The notice that ends [copyPngToClipboard]. *)
Definition writeNotice (w : World) (b : Blob) : Effect :=
  match clipboardWrite w b with
  | None => Notice (js "Image copied to clipboard!")
  | Some _ => Notice (js "Failed to copy...")
  end.

(** [evt?.target || targetImage] *)
Definition targetOf (evt : option Target) (targetImage : option ImgElement)
  : option Target :=
  match evt with
  | Some tg => Some tg
  | None => option_map ImgTarget targetImage
  end.

(* ================================================================== *)
(** ** The rest of the plugin *)

(** An entry of the editor's context menu. *)
Record MenuItem := { title : t; icon : t; disabled : bool }.

(** The callback registered on [editor-menu] (lines 29-38): nothing when
    no image is targeted, else one more entry, whose click runs
    [handleMenuOption]. *)
Definition onEditorMenu (p : Plugin) (menu : list MenuItem) : list MenuItem :=
  match targetImage p with
  | None => menu
  | Some _ =>
      menu ++ [{| title := js "Copy image to clipboard";
                  icon := js "image";
                  disabled := negb (match targetImage p with
                                    | Some _ => true
                                    | None => false
                                    end) |}]
  end.

(** The [contextmenu] events of a session, handled in order. *)
Definition contextMenus (p : Plugin) (evts : list Target) : Plugin :=
  fold_left handleContextMenu evts p.

(** [copyImageToClipboard] as the earlier version of the file has it
    (second part of [src/main.ts]): no SVG branch. *)
Definition copyImageToClipboardOld (w : World) (evt : option Target)
           (targetImage : option ImgElement) : M unit :=
  let target :=
    match evt with
    | Some tg => Some tg
    | None => option_map ImgTarget targetImage
    end in
  match target with
  | None => ret tt
  | Some target =>
      emit (Fetch (srcOf target)) ;;;
      imageBlob <- await (fetchBlob w (srcOf target)) ;;
      if eqb (blobType imageBlob) pngType then copyPngToClipboard w imageBlob
      else copyNonPngToClipboard w imageBlob
  end.

(** Reading a log of effects. *)

Definition fetchedUrls (tr : list Effect) : list t :=
  flat_map (fun e => match e with
                     | Fetch url => [url]
                     | _ => []
                     end) tr.

Definition clipboardWrites (tr : list Effect) : list Blob :=
  flat_map (fun e => match e with
                     | ClipboardWrite _ payload => [payload]
                     | _ => []
                     end) tr.

Definition isDraw (e : Effect) : bool :=
  match e with
  | DrawImage _ _ => true
  | _ => false
  end.

(** An event that leaves a pending long press as it is: not a touch-move
    over an image, and not a touch-start over an image at time 0. *)
Definition keepsPress (ev : DomEvent) : bool :=
  match ev with
  | TouchStart evt now => negb (isImage evt) || negb (now =? 0)%Z
  | TouchMove evt => negb (isImage evt)
  | TimerFires _ => true
  end.

(** The files of the vault whose name is [name], in the order of
    [getFiles()]. *)
Definition filesNamed (name : t) (files : list TFile) : list TFile :=
  filter (fun f => eqb (fileName f) name) files.

(** A log in which success is only claimed after a write the clipboard
    accepted: if "Image copied to clipboard!" is shown, some clipboard write
    of the log was accepted. *)
Definition honest (w : World) (tr : list Effect) : Prop :=
  In (Notice (js "Image copied to clipboard!")) tr ->
  exists mime payload,
    In (ClipboardWrite mime payload) tr /\ clipboardWrite w payload = None.

(* ================================================================== *)
(** * Properties *)

(** Case analysis on an answer of the host that the goal is stuck on. *)
Ltac case_host :=
  match goal with
  | |- context [match ?x with _ => _ end] =>
      lazymatch x with
      | context [match _ with _ => _ end] => fail
      | _ => destruct x eqn:?
      end
  end.


(** ** Strings *)

Lemma eqb_eq (a b : t) : eqb a b = true <-> a = b.
Proof.
  revert b; induction a as [|x a IH]; intros [|y b]; simpl; split;
    try congruence; try reflexivity.
  - intros H. apply andb_true_iff in H as [Hx Hab].
    apply N.eqb_eq in Hx. apply IH in Hab. congruence.
  - intros H. injection H as -> ->.
    rewrite N.eqb_refl. simpl. now apply IH.
Qed.

Lemma eqb_refl (a : t) : eqb a a = true.
Proof. now apply eqb_eq. Qed.

Lemma startsWith_app (pat y : t) : startsWith pat (pat ++ y) = true.
Proof.
  induction pat as [|p pat IH]; simpl; [reflexivity|].
  now rewrite N.eqb_refl, IH.
Qed.

Lemma startsWith_inv (pat s : t) :
  startsWith pat s = true -> exists y, s = pat ++ y.
Proof.
  revert s; induction pat as [|p pat IH]; intros s H.
  - now exists s.
  - destruct s as [|c s]; simpl in H; [discriminate|].
    apply andb_true_iff in H as [Hc Hs]. apply N.eqb_eq in Hc. subst c.
    destruct (IH _ Hs) as [y ->]. now exists y.
Qed.

Lemma includes_here (pat s : t) : startsWith pat s = true -> includes pat s = true.
Proof. destruct s; simpl; intros ->; reflexivity. Qed.

Lemma includes_app (pat x y : t) : includes pat (x ++ pat ++ y) = true.
Proof.
  induction x as [|c x IH].
  - apply includes_here. exact (startsWith_app pat y).
  - cbn [app includes]. rewrite IH. apply orb_true_r.
Qed.

Lemma includes_inv (pat s : t) :
  includes pat s = true -> exists x y, s = x ++ pat ++ y.
Proof.
  induction s as [|c s IH]; simpl; intros H.
  - apply startsWith_inv in H as [y Hy]. now exists [], y.
  - apply orb_true_iff in H as [H|H].
    + apply startsWith_inv in H as [y Hy]. now exists [], y.
    + destruct (IH H) as (x & y & ->). now exists (c :: x), y.
Qed.

Lemma includes_char (c : N) (s : t) : includes [c] s = true <-> In c s.
Proof.
  induction s as [|d s IH]; simpl.
  - split; [discriminate | tauto].
  - rewrite orb_true_iff, IH, andb_true_r, N.eqb_eq. intuition congruence.
Qed.

Lemma split_without (sep : N) (s : t) : ~ In sep s -> split sep s = [s].
Proof.
  induction s as [|c s IH]; simpl; intros H; [reflexivity|].
  destruct (N.eqb_spec c sep) as [->|_]; [tauto|].
  rewrite IH by tauto. reflexivity.
Qed.

Lemma split_hd (sep : N) (name rest : t) :
  ~ In sep name -> hd [] (split sep (name ++ sep :: rest)) = name.
Proof.
  induction name as [|c s IH]; simpl; intros H.
  - now rewrite N.eqb_refl.
  - destruct (N.eqb_spec c sep) as [->|_]; [tauto|].
    specialize (IH ltac:(tauto)).
    destruct (split sep (s ++ sep :: rest)); simpl in *; congruence.
Qed.

Lemma hasEmbed_app (u x y : t) :
  hasEmbed (u ++ embedOpen ++ x ++ embedClose ++ y) = true.
Proof.
  induction u as [|c u IH].
  - cbn [app embedOpen hasEmbed startsWith skipn]. rewrite !N.eqb_refl.
    cbn [andb]. now rewrite includes_app.
  - cbn [app hasEmbed]. rewrite IH. apply orb_true_r.
Qed.

(** ** The matcher *)

Section Stars.
Variable R : Type.
Variable p : N -> bool.
Variable k : t -> option R.

Lemma starGreedy_none (s : t) :
  (forall u v, s = u ++ v -> k v = None) -> starGreedy p s k = None.
Proof.
  induction s as [|c s IH]; intros H; simpl.
  - now apply (H [] []).
  - rewrite IH by (intros u v ->; now apply (H (c :: u) v)).
    rewrite (H [] (c :: s)) by reflexivity. now destruct (p c).
Qed.

(** The greedy star gives up as little as it can: it stops before the last
    suffix on which the continuation succeeds. *)
Lemma starGreedy_last (a b : t) (r : R) :
  forallb p a = true ->
  k b = Some r ->
  (forall u v, b = u ++ v -> u <> [] -> k v = None) ->
  starGreedy p (a ++ b) k = Some r.
Proof.
  intros Ha Hb Hlast. induction a as [|c a IH]; simpl in *.
  - destruct b as [|c b]; simpl; [assumption|].
    rewrite starGreedy_none.
    + now destruct (p c).
    + intros u v ->. apply (Hlast (c :: u) v); [reflexivity | discriminate].
  - apply andb_true_iff in Ha as [-> Ha]. now rewrite IH.
Qed.

Lemma starGreedy_all (s : t) (r : R) :
  forallb p s = true -> k [] = Some r -> starGreedy p s k = Some r.
Proof.
  intros Hs Hk. rewrite <- (app_nil_r s). apply starGreedy_last; auto.
  intros [|c u] v E; [congruence | discriminate].
Qed.

Lemma starLazy_inv (s : t) (r : R) :
  starLazy p s k = Some r -> exists a b, s = a ++ b /\ k b = Some r.
Proof.
  induction s as [|c s IH]; simpl.
  - destruct (k []) eqn:E; [|discriminate]. intros [= <-]. now exists [], [].
  - destruct (k (c :: s)) eqn:E.
    + intros [= <-]. now exists [], (c :: s).
    + destruct (p c); [|discriminate]. intros H.
      destruct (IH H) as (a & b & -> & Hb). now exists (c :: a), b.
Qed.

(** The lazy star takes as little as it can: it stops at the first suffix
    on which the continuation succeeds. *)
Lemma starLazy_first (a b : t) (r : R) :
  forallb p a = true ->
  k b = Some r ->
  (forall u v, a = u ++ v -> v <> [] -> k (v ++ b) = None) ->
  starLazy p (a ++ b) k = Some r.
Proof.
  intros Ha Hb Hfirst. induction a as [|c a IH]; simpl in *.
  - destruct b; simpl; now rewrite Hb.
  - apply andb_true_iff in Ha as [Hc Ha].
    pose proof (Hfirst [] (c :: a) eq_refl ltac:(discriminate)) as E.
    simpl in E. rewrite E, Hc. apply IH; [assumption|].
    intros u v -> Hv. now apply (Hfirst (c :: u) v).
Qed.

End Stars.

(** ** The embed pattern *)

Lemma firstn_app_minus (a b : t) :
  firstn (List.length (a ++ b) - List.length b) (a ++ b) = a.
Proof.
  rewrite length_app, Nat.add_sub.
  rewrite firstn_app, Nat.sub_diag, firstn_all. simpl. apply app_nil_r.
Qed.

(** [!\[\[(.*?)\]\].*] only matches at the head of a string that starts
    with an embed. *)
Lemma embedBody_inv (s : t) r :
  matchAt embedBody s = Some r -> exists x y, s = embedOpen ++ x ++ embedClose ++ y.
Proof.
  unfold matchAt, embedBody. cbn [matcher].
  destruct s as [|c1 [|c2 [|c3 s]]]; cbn [atomMatches];
    repeat match goal with
           | |- context [N.eqb ?a ?b] => destruct (N.eqb_spec a b); try discriminate
           end; try discriminate.
  subst. intros H. apply starLazy_inv in H as (a & b & -> & H).
  destruct b as [|d1 [|d2 b]];
    repeat match type of H with
           | context [N.eqb ?a ?b] => destruct (N.eqb_spec a b); try discriminate
           end; try discriminate.
  subst. now exists a, b.
Qed.

Lemma closes_first (inner v post : t) u :
  includes embedClose (inner ++ [93%N]) = false ->
  inner = u ++ v -> v <> [] ->
  startsWith embedClose (v ++ embedClose ++ post) = false.
Proof.
  intros Hno -> Hv.
  destruct (startsWith embedClose (v ++ embedClose ++ post)) eqn:E; [|reflexivity].
  enough (includes embedClose ((u ++ v) ++ [93%N]) = true) by congruence.
  clear Hno.
  destruct v as [|c1 [|c2 v]]; [congruence| |].
  - cbn [startsWith embedClose app] in E. apply andb_true_iff in E as [E _]. apply N.eqb_eq in E. subst c1.
    rewrite <- app_assoc. exact (includes_app embedClose u []).
  - cbn [startsWith embedClose app] in E. apply andb_true_iff in E as [E1 E]. apply andb_true_iff in E as [E2 _].
    apply N.eqb_eq in E1, E2. subst c1 c2.
    rewrite <- app_assoc. exact (includes_app embedClose u (v ++ [93%N])).
Qed.

(** At the head of an embed whose text has no earlier []]], the body of
    the pattern matches up to the end of the line and captures the text. *)
Lemma embedBody_here (inner post : t) :
  singleLine inner = true ->
  singleLine post = true ->
  includes embedClose (inner ++ [93%N]) = false ->
  matchAt embedBody (embedOpen ++ inner ++ embedClose ++ post) = Some ([], Some inner).
Proof.
  intros Hin Hpost Hno. unfold matchAt, embedBody.
  cbn [matcher embedOpen app atomMatches]. rewrite !N.eqb_refl.
  apply starLazy_first; [exact Hin | |].
  - cbn [embedClose app atomMatches]. rewrite !N.eqb_refl.
    rewrite firstn_app_minus. now apply starGreedy_all.
  - intros u v E Hv.
    pose proof (@closes_first inner v post u Hno E Hv) as Hc.
    destruct (v ++ embedClose ++ post) as [|c1 [|c2 l]]; try reflexivity;
      cbn [atomMatches]; cbn [startsWith embedClose] in Hc.
    + now destruct (N.eqb 93 c1).
    + destruct (N.eqb 93 c1); [|reflexivity].
      destruct (N.eqb 93 c2); [discriminate | reflexivity].
Qed.

(** On a line without line terminators the whole pattern matches from the
    start of the line, and its group is the text of the last embed. *)
Lemma embedRegex_last (pre inner post : t) :
  singleLine (pre ++ embedOpen ++ inner ++ embedClose ++ post) = true ->
  includes embedClose (inner ++ [93%N]) = false ->
  hasEmbed (inner ++ embedClose ++ post) = false ->
  matchAt embedRegex (pre ++ embedOpen ++ inner ++ embedClose ++ post)
  = Some ([], Some inner).
Proof.
  unfold singleLine. rewrite !forallb_app.
  intros H Hno Hlast.
  apply andb_true_iff in H as [Hpre H]. apply andb_true_iff in H as [_ H].
  apply andb_true_iff in H as [Hin H]. apply andb_true_iff in H as [_ Hpost].
  unfold matchAt, embedRegex. cbn [matcher].
  apply starGreedy_last; [exact Hpre | now apply embedBody_here |].
  intros u v E Hu.
  destruct (matcher embedBody v None (fun s' cap => Some (s', cap))) eqn:Hm;
    [|reflexivity].
  exfalso. apply embedBody_inv in Hm as (x & y & ->).
  destruct u as [|c u]; [congruence|].
  assert (Hh : hasEmbed (tl ((c :: u) ++ embedOpen ++ x ++ embedClose ++ y)) = true)
    by apply hasEmbed_app.
  rewrite <- E in Hh.
  change (hasEmbed (inner ++ embedClose ++ post) = true) in Hh.
  congruence.
Qed.

Lemma replace_last (pre inner post : t) :
  singleLine (pre ++ embedOpen ++ inner ++ embedClose ++ post) = true ->
  includes embedClose (inner ++ [93%N]) = false ->
  hasEmbed (inner ++ embedClose ++ post) = false ->
  replaceWithGroup1 embedRegex (pre ++ embedOpen ++ inner ++ embedClose ++ post)
  = inner.
Proof.
  intros H1 H2 H3. unfold replaceWithGroup1.
  pose proof (embedRegex_last pre inner post H1 H2 H3) as Hm.
  destruct (pre ++ embedOpen ++ inner ++ embedClose ++ post);
    cbn [exec]; rewrite Hm; cbn; apply app_nil_r.
Qed.

(** ** The resolver *)

(** The shared core of the extraction claims: whatever comes before it, the
    last embed of a line gives the name. *)
Lemma extract_last_embed (pre name post : t) (alias : option t) :
  singleLine (pre ++ embedOpen ++ embedText name alias ++ embedClose ++ post) = true ->
  name <> [] ->
  includes [pipe] name = false ->
  includes embedClose (embedText name alias ++ [93%N]) = false ->
  hasEmbed (embedText name alias ++ embedClose ++ post) = false ->
  extractFileName (pre ++ embedOpen ++ embedText name alias ++ embedClose ++ post)
  = Some name.
Proof.
  intros Hline Hname Hpipe Hclose Hlast. unfold extractFileName.
  rewrite includes_app. cbn [negb].
  rewrite (replace_last _ _ _ Hline Hclose Hlast).
  assert (Hne : eqb (embedText name alias) [] = false).
  { destruct name; [congruence | reflexivity]. }
  rewrite Hne.
  assert (Hnot : ~ In pipe name).
  { intros Hin. apply includes_char in Hin. congruence. }
  destruct alias as [a|]; unfold embedText.
  - assert (Hin : includes [pipe] (name ++ pipe :: a) = true).
    { apply includes_char, in_or_app. right. now left. }
    rewrite Hin. now rewrite split_hd.
  - rewrite app_nil_r, Hpipe. reflexivity.
Qed.

(** [handleCommand] is the resolver followed by the lookup. *)
Lemma handleCommand_resolve (w : World) (files : list TFile) (line : t) :
  handleCommand w files line =
  match resolveLine line with
  | Some fileNane => forEachAsync (copyVaultFile w fileNane) files
  | None => notice "Not an image file or not supported..."
  end.
Proof.
  unfold handleCommand, resolveLine, extractFileName, extensionOf.
  destruct (negb (includes embedOpen line)); [reflexivity|].
  destruct (eqb (replaceWithGroup1 embedRegex line) []); [reflexivity|].
  destruct (includes [pipe] (replaceWithGroup1 embedRegex line));
    match goal with
    | |- context [falsy ?x] => destruct x as [[|c e]|]; try reflexivity
    end;
    cbn [falsy]; now destruct (arrayIncludes supportedExtensions (c :: e)).
Qed.

(** C5. On a cursor line that holds an embed [![[name]]] or
    [![[name|alias]]] and no embed after it, where the line has no line
    terminator, the name is not empty and has no [|], and the text of the
    embed neither contains []]] nor ends in []], the command path extracts
    exactly [name]: the text between [![[] and []]] with everything from
    the first [|] on removed. *)
Theorem C5_extracts_name_without_alias (pre name post : t) (alias : option t) :
  singleLine (pre ++ embedOpen ++ embedText name alias ++ embedClose ++ post) = true ->
  name <> [] ->
  includes [pipe] name = false ->
  includes embedClose (embedText name alias ++ [closeBracket]) = false ->
  hasEmbed (embedText name alias ++ embedClose ++ post) = false ->
  extractFileName (pre ++ embedOpen ++ embedText name alias ++ embedClose ++ post)
  = Some name.
Proof. apply extract_last_embed. Qed.

Lemma C5_witness :
  extractFileName (js "![[name.ext|alias]]") = Some (js "name.ext")
  /\ extractFileName (js "see ![[name.ext]] here") = Some (js "name.ext").
Proof.
  split.
  - apply (@C5_extracts_name_without_alias [] (js "name.ext") [] (Some (js "alias")));
      (reflexivity || discriminate).
  - apply (@C5_extracts_name_without_alias (js "see ") (js "name.ext") (js " here") None);
      (reflexivity || discriminate).
Defined.

(** C10. On a cursor line with more than one embed and no line terminator,
    the command path extracts the name of the last embed, whatever the
    earlier ones are: any other name, the first embed's included, is not
    what it extracts. *)
Theorem C10_last_embed_wins (pre first mid name post : t) (alias : option t) :
  singleLine (pre ++ embedOpen ++ first ++ embedClose ++ mid
              ++ embedOpen ++ embedText name alias ++ embedClose ++ post) = true ->
  name <> [] ->
  includes [pipe] name = false ->
  includes embedClose (embedText name alias ++ [closeBracket]) = false ->
  hasEmbed (embedText name alias ++ embedClose ++ post) = false ->
  extractFileName (pre ++ embedOpen ++ first ++ embedClose ++ mid
                   ++ embedOpen ++ embedText name alias ++ embedClose ++ post)
  = Some name
  /\ forall other, other <> name ->
       extractFileName (pre ++ embedOpen ++ first ++ embedClose ++ mid
                        ++ embedOpen ++ embedText name alias ++ embedClose ++ post)
       <> Some other.
Proof.
  intros Hline Hname Hpipe Hclose Hlast.
  assert (E : extractFileName
                (pre ++ embedOpen ++ first ++ embedClose ++ mid
                 ++ embedOpen ++ embedText name alias ++ embedClose ++ post)
              = Some name).
  { replace (pre ++ embedOpen ++ first ++ embedClose ++ mid
             ++ embedOpen ++ embedText name alias ++ embedClose ++ post)
      with ((pre ++ embedOpen ++ first ++ embedClose ++ mid)
            ++ embedOpen ++ embedText name alias ++ embedClose ++ post) in *
      by (now rewrite <- !app_assoc).
    now apply extract_last_embed. }
  split; [exact E|]. intros other Hother. rewrite E. congruence.
Qed.

Lemma C10_witness :
  extractFileName (js "![[a.png]] and ![[b.jpg|x]] end") = Some (js "b.jpg")
  /\ extractFileName (js "![[a.png]] and ![[b.jpg|x]] end") <> Some (js "a.png").
Proof.
  destruct (@C10_last_embed_wins [] (js "a.png") (js " and ") (js "b.jpg") (js " end")
              (Some (js "x"))) as [E N]; try (reflexivity || discriminate).
  split; [exact E | apply N; discriminate].
Defined.

(** ** The command path *)

(** C4. When the extension of the extracted file name, compared code unit
    by code unit, is not one of bmp, gif, jpeg, jpg, png, tiff, the command
    shows the notice "Not an image file or not supported..." and does
    nothing else: no fetch, no clipboard write, whatever the vault holds. *)
Theorem C4_unsupported_extension_is_refused
        (w : World) (files : list TFile) (line name ext : t) :
  extractFileName line = Some name ->
  extensionOf name = Some ext ->
  arrayIncludes supportedExtensions ext = false ->
  handleCommand w files line
  = ([Notice (js "Not an image file or not supported...")], Resolved tt).
Proof.
  intros Hname Hext Hnot. rewrite handleCommand_resolve.
  unfold resolveLine. rewrite Hname. cbv zeta. rewrite Hext.
  destruct (falsy (Some ext)); [reflexivity|].
  rewrite Hnot. reflexivity.
Qed.

Lemma C4_witness :
  let w := hostWith (inr (blobOf "image/svg+xml" [60%N])) (inl []) (Some (10, 10)%Z) true None in
  handleCommand w [{| fileName := js "diagram.svg"; filePath := js "art/diagram.svg" |}]
                (js "Some text ![[diagram.svg|50]] more text")
  = ([Notice (js "Not an image file or not supported...")], Resolved tt)
  /\ handleCommand w [{| fileName := js "cat.PNG"; filePath := js "cat.PNG" |}]
                   (js "![[cat.PNG]]")
     = ([Notice (js "Not an image file or not supported...")], Resolved tt).
Proof.
  split.
  - apply (@C4_unsupported_extension_is_refused _ _ _ (js "diagram.svg") (js "svg"));
      reflexivity.
  - apply (@C4_unsupported_extension_is_refused _ _ _ (js "cat.PNG") (js "PNG"));
      reflexivity.
Defined.

Lemma forEachAsync_no_match (w : World) (name : t) (files : list TFile) :
  (forall f, In f files -> fileName f <> name) ->
  forEachAsync (copyVaultFile w name) files = ([], Resolved tt).
Proof.
  induction files as [|f files IH]; intros H; [reflexivity|].
  cbn [forEachAsync]. unfold copyVaultFile at 1.
  destruct (eqb (fileName f) name) eqn:E.
  - apply eqb_eq in E. exfalso. apply (H f); [now left | assumption].
  - rewrite IH by (intros g Hg; apply H; now right). reflexivity.
Qed.

(** C7, where the code falls short of it. When the line resolves to a
    name with a supported extension and no file of the vault has exactly
    that name, the command ends without any effect: no fetch, no clipboard
    write, and no notice either, where every other refusal of
    [handleCommand] shows "Not an image file or not supported...". *)
Theorem C7_missing_file_is_silent
        (w : World) (files : list TFile) (line name : t) :
  resolveLine line = Some name ->
  (forall f, In f files -> fileName f <> name) ->
  handleCommand w files line = ([], Resolved tt).
Proof.
  intros Hres Hnone. rewrite handleCommand_resolve, Hres.
  now apply forEachAsync_no_match.
Qed.

Lemma C7_witness :
  handleCommand (hostWith (inl []) (inl []) None true None)
                [{| fileName := js "dog.png"; filePath := js "dog.png" |}]
                (js "![[cat.png]]")
  = ([], Resolved tt).
Proof.
  apply (@C7_missing_file_is_silent _ _ _ (js "cat.png")); [reflexivity|].
  intros f [<-|[]]. discriminate.
Defined.

(** For instance [cat.png] passes the extension test, the vault has no
    file of that name, and no notice is shown. *)
Lemma missing_file_shows_no_notice :
  let w := hostWith (inl []) (inl []) None true None in
  let files := [{| fileName := js "dog.png"; filePath := js "dog.png" |}] in
  let line := js "![[cat.png]]" in
  resolveLine line = Some (js "cat.png")
  /\ existsb (fun f => eqb (fileName f) (js "cat.png")) files = false
  /\ ~ In (Notice (js "Not an image file or not supported..."))
          (invoke (handleCommand w files line))
  /\ existsb isNotice (invoke (handleCommand w files line)) = false.
Proof.
  cbv zeta. repeat split; try reflexivity. intros [].
Qed.

(** ** Properties of every effect of a computation *)

Section Always.
Variable P : Effect -> Prop.





Lemma always_bind {A B} (m : M A) (f : A -> M B) :
  always P m -> (forall a, always P (f a)) -> always P (bind m f).
Proof.
  unfold always, trace, bind. destruct m as [tr [a|e]]; intros Hm Hf; [|exact Hm].
  specialize (Hf a). destruct (f a) as [tr' r]. apply Forall_app. now split.
Qed.


Hypothesis unhandled_ok : forall e, P (UnhandledRejection e).

Lemma always_detach (m : M unit) : always P m -> always P (detach m).
Proof.
  unfold always, trace, detach. destruct m as [tr [a|e]]; intros Hm; [exact Hm|].
  apply Forall_app. split; [exact Hm|]. repeat constructor. apply unhandled_ok.
Qed.

Lemma always_forEachAsync {A} (f : A -> M unit) (l : list A) :
  (forall x, always P (f x)) -> always P (forEachAsync f l).
Proof.
  intros Hf. induction l as [|x l IH]; [constructor|].
  cbn [forEachAsync]. apply always_bind; [now apply always_detach | now intros _].
Qed.

End Always.

(** ** The clipboard only gets PNG *)

Section Png.
Variable w : World.










End Png.



(** ** The PNG path *)

Lemma copyPngToClipboard_trace (w : World) (b : Blob) :
  copyPngToClipboard w b
  = ([ClipboardWrite (blobType b) b; writeNotice w b], Resolved tt).
Proof.
  unfold copyPngToClipboard, writeNotice.
  destruct (clipboardWrite w b); reflexivity.
Qed.

(** C2. A fetched blob whose type is [image/png] goes to the clipboard as
    it is: on the element path (context menu, long press) and on the command
    path the only clipboard write carries that very blob, bytes included,
    and neither the decoder nor the canvas is used. *)
Theorem C2_png_is_passed_through
        (w : World) (p : Plugin) (evt : option Target) (ti : option ImgElement)
        (target : Target) (file : TFile) (b : Blob) :
  blobType b = pngType ->
  (targetOf evt ti = Some target ->
   fetchBlob w (srcOf target) = inr b ->
   copyImageToClipboard w p evt ti
   = ([Fetch (srcOf target); ClipboardWrite pngType b; writeNotice w b], Resolved tt))
  /\ (fetchBlob w (getResourcePath w (filePath file)) = inr b ->
      copyVaultFile w (fileName file) file
      = ([Notice (js "Copying the image...");
          Fetch (getResourcePath w (filePath file));
          ClipboardWrite pngType b; writeNotice w b], Resolved tt)).
Proof.
  intros Hpng. split.
  - intros Htarget Hfetch. unfold copyImageToClipboard.
    fold (targetOf evt ti). rewrite Htarget. cbn [bind emit]. rewrite Hfetch.
    cbn [await ret bind]. rewrite Hpng, eqb_refl, copyPngToClipboard_trace, Hpng.
    reflexivity.
  - intros Hfetch. unfold copyVaultFile. rewrite eqb_refl.
    cbn [bind notice emit]. rewrite Hfetch.
    cbn [await ret bind]. rewrite Hpng, eqb_refl, copyPngToClipboard_trace, Hpng.
    reflexivity.
Qed.

Lemma C2_witness :
  let b := blobOf "image/png" [137; 80; 78; 71; 13; 10; 26; 10]%N in
  let w := hostWith (inr b) (inl []) None true None in
  let img := {| src := js "app://a.png" |} in
  copyImageToClipboard w (pluginWith 0 4) None (Some img)
  = ([Fetch (js "app://a.png"); ClipboardWrite pngType b;
      Notice (js "Image copied to clipboard!")], Resolved tt)
  /\ copyVaultFile w (js "a.png") {| fileName := js "a.png"; filePath := js "a.png" |}
     = ([Notice (js "Copying the image..."); Fetch (js "app://local/a.png");
         ClipboardWrite pngType b; Notice (js "Image copied to clipboard!")],
        Resolved tt).
Proof.
  cbv zeta.
  pose proof (@C2_png_is_passed_through
                (hostWith (inr (blobOf "image/png" [137; 80; 78; 71; 13; 10; 26; 10]%N))
                          (inl []) None true None)
                (pluginWith 0 4) None (Some {| src := js "app://a.png" |})
                (ImgTarget {| src := js "app://a.png" |})
                {| fileName := js "a.png"; filePath := js "a.png" |}
                (blobOf "image/png" [137; 80; 78; 71; 13; 10; 26; 10]%N)
                eq_refl) as [H1 H2].
  split; [exact (H1 eq_refl eq_refl) | exact (H2 eq_refl)].
Defined.

(** ** The SVG path *)

Lemma storeUnsignedLong_in_range (default v : Z) :
  (0 <= v <= 2147483647)%Z -> storeUnsignedLong default v = v.
Proof.
  intros H. unfold storeUnsignedLong, toUnsignedLong.
  rewrite Z.mod_small by lia.
  destruct (Z.leb_spec v 2147483647); [reflexivity | lia].
Qed.

(** C3, as the code has it. When the SVG image loads with [img.width] = w
    and [img.height] = h and a 2d context is available, and the scaled
    sizes (w, or 300 when w is 0) times the scale and (h, or 300 when h is
    0) times the scale lie between 0 and 2147483647, which is what
    [canvas.width] and [canvas.height] keep as assigned, the image is drawn
    on a canvas of exactly that width and that height. *)
Theorem C3_canvas_is_scaled
        (w : World) (p : Plugin) (b : Blob) (iw ih : Z) :
  imageLoad w (createObjectURL w b) = Some (iw, ih) ->
  canvasContext2d w = true ->
  (0 <= (if iw =? 0 then 300 else iw) * svgToPngScale p <= 2147483647)%Z ->
  (0 <= (if ih =? 0 then 300 else ih) * svgToPngScale p <= 2147483647)%Z ->
  canvasSize p iw ih
  = ((if iw =? 0 then 300 else iw) * svgToPngScale p,
     (if ih =? 0 then 300 else ih) * svgToPngScale p)%Z
  /\ exists rest,
      trace (copySvgToClipboard w p b)
      = CreateObjectURL b (createObjectURL w b)
        :: DrawImage ((if iw =? 0 then 300 else iw) * svgToPngScale p)%Z
                     ((if ih =? 0 then 300 else ih) * svgToPngScale p)%Z
        :: rest.
Proof.
  intros Hload Hctx Hw Hh.
  assert (Hsize : canvasSize p iw ih
                  = ((if iw =? 0 then 300 else iw) * svgToPngScale p,
                     (if ih =? 0 then 300 else ih) * svgToPngScale p)%Z).
  { unfold canvasSize, orElse.
    now rewrite !storeUnsignedLong_in_range by assumption. }
  split; [exact Hsize|].
  unfold copySvgToClipboard. rewrite Hload, Hctx.
  cbn [bind emit ret fst snd negb tryCatch]. rewrite Hsize.
  cbn [bind emit ret fst snd negb tryCatch].
  match goal with
  | |- context [detach ?m] => destruct (detach m) as [tr [[]|e]]
  end; cbn [trace fst app]; eexists; reflexivity.
Qed.

Lemma C3_witness :
  let b := blobOf "image/svg+xml" [60; 115; 118; 103]%N in
  (exists rest,
     trace (copySvgToClipboard (hostWith (inr b) (inl []) (Some (0, 0)%Z) true None)
                               (pluginWith 0 4) b)
     = CreateObjectURL b (js "blob:1") :: DrawImage 1200 1200 :: rest)
  /\ (exists rest,
     trace (copySvgToClipboard (hostWith (inr b) (inl []) (Some (100, 100)%Z) true None)
                               (pluginWith 0 4) b)
     = CreateObjectURL b (js "blob:1") :: DrawImage 400 400 :: rest).
Proof.
  cbv zeta. split.
  - refine (proj2 (@C3_canvas_is_scaled
                     (hostWith (inr (blobOf "image/svg+xml" [60; 115; 118; 103]%N))
                               (inl []) (Some (0, 0)%Z) true None)
                     (pluginWith 0 4) (blobOf "image/svg+xml" [60; 115; 118; 103]%N)
                     0 0 eq_refl eq_refl _ _)); cbn; lia.
  - refine (proj2 (@C3_canvas_is_scaled
                     (hostWith (inr (blobOf "image/svg+xml" [60; 115; 118; 103]%N))
                               (inl []) (Some (100, 100)%Z) true None)
                     (pluginWith 0 4) (blobOf "image/svg+xml" [60; 115; 118; 103]%N)
                     100 100 eq_refl eq_refl _ _)); cbn; lia.
Defined.

(** The claim C3 as stated fails on large images: at 500000000 x 1 and
    scale 10 the product 5000000000 does not fit the [unsigned long] of
    [canvas.width], which keeps 5000000000 modulo 2^32, and the image is
    drawn on a canvas 705032704 wide. *)
Lemma C3_counterexample :
  let b := blobOf "image/svg+xml" [60; 115; 118; 103]%N in
  let w := hostWith (inr b) (inl []) (Some (500000000, 1)%Z) true None in
  canvasSize (pluginWith 0 10) 500000000 1 = (705032704, 10)%Z
  /\ (exists rest,
        trace (copySvgToClipboard w (pluginWith 0 10) b)
        = CreateObjectURL b (js "blob:1") :: DrawImage 705032704 10 :: rest)
  /\ (705032704 <> 500000000 * 10)%Z.
Proof.
  cbv zeta. split; [reflexivity|]. split; [|discriminate].
  eexists. reflexivity.
Qed.

Lemma svg_revokes_after_encoding (w : World) (p : Plugin) (b : Blob) (dims : Z * Z) :
  imageLoad w (createObjectURL w b) = Some dims ->
  canvasContext2d w = true ->
  exists tr,
    copySvgToClipboard w p b
    = (tr ++ [RevokeObjectURL (createObjectURL w b)], Resolved tt).
Proof.
  intros Hload Hctx. unfold copySvgToClipboard. rewrite Hload, Hctx.
  cbn [bind emit ret negb].
  destruct (canvasSize p (fst dims) (snd dims)) as [cw chh].
  unfold toBlobCallback.
  destruct (canvasToBlob w cw chh) as [bytes|]; cbn [option_map].
  - rewrite copyPngToClipboard_trace. cbn.
    eexists [_; _; _; _]. reflexivity.
  - cbn. eexists [_; _; _]. reflexivity.
Qed.

(** C8, where the code falls short of it. When the image fails to load, or
    no 2d context can be had, the object URL has been created and no effect
    of the invocation revokes it. *)
Theorem C8_object_url_leaks_on_early_exit (w : World) (p : Plugin) (b : Blob) :
  imageLoad w (createObjectURL w b) = None \/
  (imageLoad w (createObjectURL w b) <> None /\ canvasContext2d w = false) ->
  In (CreateObjectURL b (createObjectURL w b)) (invoke (copySvgToClipboard w p b))
  /\ existsb isRevoke (invoke (copySvgToClipboard w p b)) = false.
Proof.
  unfold copySvgToClipboard.
  intros [Hload | [Hload Hctx]].
  - rewrite Hload. cbn. split; [now left | reflexivity].
  - destruct (imageLoad w (createObjectURL w b)) as [dims|]; [|congruence].
    rewrite Hctx. destruct (canvasSize p (fst dims) (snd dims)).
    cbn. split; [now left | reflexivity].
Qed.

Lemma C8_witness :
  let b := blobOf "image/svg+xml" [60; 115; 118; 103]%N in
  let w := hostWith (inr b) (inl []) (Some (100, 100)%Z) false None in
  invoke (copySvgToClipboard w (pluginWith 0 4) b)
  = [CreateObjectURL b (js "blob:1"); Notice (js "Could not create canvas context.")]
  /\ existsb isRevoke (invoke (copySvgToClipboard w (pluginWith 0 4) b)) = false.
Proof.
  cbv zeta. split; [reflexivity|].
  refine (proj2 (@C8_object_url_leaks_on_early_exit
                   (hostWith (inr (blobOf "image/svg+xml" [60; 115; 118; 103]%N))
                             (inl []) (Some (100, 100)%Z) false None)
                   (pluginWith 0 4) (blobOf "image/svg+xml" [60; 115; 118; 103]%N) _)).
  right. split; [discriminate | reflexivity].
Defined.

(** ** Errors *)



(** C6, where the code falls short of it. On the long-press path a failed
    fetch is caught by nobody: the callback's promise is rejected, the host
    sees an unhandled rejection, and the only notice is the one shown
    before the fetch. *)
Theorem C6_touch_fetch_error_escapes
        (w : World) (p : Plugin) (img : ImgElement) (msg : t) :
  touchTime p <> 0%Z ->
  fetchBlob w (src img) = inl msg ->
  touchTimer w p (ImgTarget img)
  = ([Notice (js "Copying the image..."); Fetch (src img)], Rejected (ErrorObject msg))
  /\ invoke (touchTimer w p (ImgTarget img))
     = [Notice (js "Copying the image..."); Fetch (src img);
        UnhandledRejection (ErrorObject msg)].
Proof.
  intros Htime Hfetch. unfold invoke, touchTimer.
  apply Z.eqb_neq in Htime. rewrite Htime.
  unfold copyImageToClipboard. cbn [negb srcOf bind notice emit]. rewrite Hfetch.
  split; reflexivity.
Qed.

Lemma C6_witness :
  invoke (touchTimer (hostWith (inl (js "Failed to fetch")) (inl []) None true None)
                     (pluginWith 1000 4) (ImgTarget {| src := js "app://a.jpg" |}))
  = [Notice (js "Copying the image..."); Fetch (js "app://a.jpg");
     UnhandledRejection (ErrorObject (js "Failed to fetch"))].
Proof.
  refine (proj2 (@C6_touch_fetch_error_escapes
                   (hostWith (inl (js "Failed to fetch")) (inl []) None true None)
                   (pluginWith 1000 4) {| src := js "app://a.jpg" |}
                   (js "Failed to fetch") _ eq_refl)).
  discriminate.
Defined.

(** The same on the command path, and for an image the decoder rejects. *)
Lemma command_errors_escape :
  let file := {| fileName := js "a.jpg"; filePath := js "a.jpg" |} in
  invoke (handleCommand (hostWith (inl (js "Failed to fetch")) (inl []) None true None)
                        [file] (js "![[a.jpg]]"))
  = [Notice (js "Copying the image..."); Fetch (js "app://local/a.jpg");
     UnhandledRejection (ErrorObject (js "Failed to fetch"))]
  /\ invoke (handleCommand
               (hostWith (inr (blobOf "image/jpeg" [0%N]))
                         (inl (js "Could not find MIME for Buffer")) None true None)
               [file] (js "![[a.jpg]]"))
     = [Notice (js "Copying the image..."); Fetch (js "app://local/a.jpg");
        CreateObjectURL (blobOf "image/jpeg" [0%N]) (js "blob:1");
        JimpRead (js "blob:1");
        UnhandledRejection (ErrorObject (js "Could not find MIME for Buffer"))].
Proof. split; reflexivity. Qed.

(** The context-menu path does catch: every error ends as a notice, the
    handler's promise is resolved and no rejection is left unhandled. *)
Lemma menu_catches_everything (w : World) (p : Plugin) :
  snd (handleMenuOption w p) = Resolved tt
  /\ existsb isUnhandled (invoke (handleMenuOption w p)) = false.
Proof.
  unfold invoke, handleMenuOption, trySetFocus, waitForFocus, copyImageToClipboard,
    copySvgToClipboard, copyNonPngToClipboard, toBlobCallback.
  unfold await, noticeMessage.
  repeat (cbn -[js eqb waitLoop copyPngToClipboard];
          rewrite ?copyPngToClipboard_trace; unfold writeNotice;
          try case_host).
  all: split; reflexivity.
Qed.

(** ** The touch regime *)

Section Touch.
Variable w : World.

Lemma run_app (st : Loop) (a b : list DomEvent) :
  run w st (a ++ b) = run w (run w st a) b.
Proof. apply fold_left_app. Qed.

Lemma step_keeps_timers (st : Loop) (ev : DomEvent) (n : nat) (evt : Target) :
  nth_error (timers st) n = Some evt ->
  nth_error (timers (step w st ev)) n = Some evt.
Proof.
  intros H. destruct ev as [e now|e|k]; cbn [step].
  - unfold handleTouchStart. destruct (isImage e); cbn [timers]; [|exact H].
    rewrite nth_error_app1; [exact H|]. apply nth_error_Some. congruence.
  - exact H.
  - destruct (nth_error (timers st) k); exact H.
Qed.

Lemma run_keeps_timers (evs : list DomEvent) (st : Loop) (n : nat) (evt : Target) :
  nth_error (timers st) n = Some evt ->
  nth_error (timers (run w st evs)) n = Some evt.
Proof.
  revert st. induction evs as [|ev evs IH]; intros st H; [exact H|].
  apply IH. now apply step_keeps_timers.
Qed.

Lemma step_keeps_zero (st : Loop) (ev : DomEvent) :
  touchTime (plugin st) = 0%Z ->
  noImageTouchStart [ev] = true ->
  touchTime (plugin (step w st ev)) = 0%Z.
Proof.
  intros Hz Hev. destruct ev as [e now|e|k]; cbn [step].
  - cbn in Hev. unfold handleTouchStart.
    destruct (isImage e); [discriminate | exact Hz].
  - unfold handleTouchMove. destruct (isImage e); [reflexivity | exact Hz].
  - destruct (nth_error (timers st) k); exact Hz.
Qed.

Lemma run_keeps_zero (evs : list DomEvent) (st : Loop) :
  touchTime (plugin st) = 0%Z ->
  noImageTouchStart evs = true ->
  touchTime (plugin (run w st evs)) = 0%Z.
Proof.
  revert st. induction evs as [|ev evs IH]; intros st Hz Hevs; [exact Hz|].
  cbn [noImageTouchStart forallb] in Hevs. apply andb_true_iff in Hevs as [Hev Hevs].
  apply IH; [|exact Hevs]. apply step_keeps_zero; [exact Hz|].
  cbn [noImageTouchStart forallb]. now rewrite Hev.
Qed.

End Touch.

(** Where the reset does its work. A touch-start over an image schedules a
    check. If a touch-move over an image comes before the check, and no
    touch-start over an image comes between that touch-move and the check,
    then the check finds [touchTime] at zero and has no effect at all: no
    notice, no fetch, no clipboard write. Any events may come before the
    touch-start, and between it and the touch-move. *)
Lemma touch_move_suppresses_until_next_touch
        (w : World) (st0 : Loop) (before between after : list DomEvent)
        (evt moved : Target) (now : Z) :
  isImage evt = true ->
  isImage moved = true ->
  noImageTouchStart after = true ->
  let n := List.length (timers (run w st0 before)) in
  let st := run w st0 (before ++ [TouchStart evt now] ++ between
                       ++ [TouchMove moved] ++ after) in
  touchTime (plugin st) = 0%Z
  /\ nth_error (timers st) n = Some evt
  /\ ran (step w st (TimerFires n)) = ran st ++ [(n, [])].
Proof.
  intros Hevt Hmoved Hafter n st.
  assert (Hzero : touchTime (plugin st) = 0%Z).
  { subst st. rewrite !run_app. apply run_keeps_zero; [|exact Hafter].
    cbn [run fold_left step]. unfold handleTouchMove. now rewrite Hmoved. }
  assert (Htimer : nth_error (timers st) n = Some evt).
  { subst st. rewrite run_app, (run_app _ _ [TouchStart evt now]).
    apply run_keeps_timers.
    cbn [app run fold_left step]. unfold handleTouchStart. rewrite Hevt.
    cbn [timers]. subst n. unfold run.
    rewrite nth_error_app2, Nat.sub_diag by reflexivity. reflexivity. }
  repeat split; [exact Hzero | exact Htimer |].
  cbn [step]. rewrite Htimer. cbn [ran]. unfold touchTimer. rewrite Hzero.
  reflexivity.
Qed.

Lemma touch_move_suppresses_example :
  let w := hostWith (inr (blobOf "image/png" [137%N])) (inl []) None true None in
  let a := ImgTarget {| src := js "app://a.png" |} in
  let st := run w (initial 4) [TouchStart a 1000; TouchMove a] in
  touchTime (plugin st) = 0%Z
  /\ nth_error (timers st) 0 = Some a
  /\ ran (step w st (TimerFires 0)) = ran st ++ [(0%nat, [])].
Proof.
  exact (@touch_move_suppresses_until_next_touch
           (hostWith (inr (blobOf "image/png" [137%N])) (inl []) None true None)
           (initial 4) [] [] []
           (ImgTarget {| src := js "app://a.png" |})
           (ImgTarget {| src := js "app://a.png" |})
           1000 eq_refl eq_refl eq_refl).
Defined.

(** With a second touch-start after the touch-move, the check of the
    first touch copies the first image. *)
Lemma second_touch_revives_example :
  let png := blobOf "image/png" [137%N] in
  let w := hostWith (inr png) (inl []) None true None in
  let a := ImgTarget {| src := js "app://a.png" |} in
  let b := ImgTarget {| src := js "app://b.png" |} in
  let evs := [TouchStart a 1000; TouchMove a; TouchStart b 1500] in
  In (TouchMove a) evs
  /\ nth_error (timers (run w (initial 4) evs)) 0 = Some a
  /\ ran (run w (initial 4) (evs ++ [TimerFires 0]))
     = [(0%nat, [Notice (js "Copying the image..."); Fetch (js "app://a.png");
                 ClipboardWrite pngType png;
                 Notice (js "Image copied to clipboard!")])].
Proof.
  cbv zeta. split; [right; left; reflexivity|]. split; reflexivity.
Qed.

(** ** Side conditions *)

(** Forty rounds are all the loop of [waitForFocus] can take: when
    [waitLoop] stops, the condition of the [while] is false. *)
Lemma waitLoop_leaves (w : World) (rounds : nat) (timeElapsed : Z) :
  negb (hasFocus w (waitLoop w rounds timeElapsed))
  && (waitLoop w rounds timeElapsed <? 2000)%Z = false
  \/ waitLoop w rounds timeElapsed = (timeElapsed + 50 * Z.of_nat rounds)%Z.
Proof.
  revert timeElapsed. induction rounds as [|n IH]; intros t0.
  - right. cbn [waitLoop]. lia.
  - cbn [waitLoop].
    destruct (negb (hasFocus w t0) && (t0 <? 2000)%Z) eqn:E; [|now left].
    destruct (IH (t0 + 50)%Z) as [H|H]; [now left | right]. rewrite H. lia.
Qed.

Lemma waitForFocus_loop_done (w : World) :
  negb (hasFocus w (waitLoop w 40 0)) && (waitLoop w 40 0 <? 2000)%Z = false.
Proof.
  destruct (waitLoop_leaves w 40 0) as [H|H]; [exact H|].
  rewrite H. cbn. apply andb_false_r.
Qed.

(** The conditions of the extraction theorems are needed. Without a
    closing []]] the line is left as it is; a line separator keeps the
    pattern from reaching the start of the line; a name that ends in []] or
    holds [![[] is cut. *)
Example extract_unclosed :
  extractFileName (js "![[a.png") = Some (js "![[a.png").
Proof. reflexivity. Qed.

Example extract_after_line_separator :
  extractFileName (js "a" ++ [8232%N] ++ js "![[x.png]]")
  = Some (js "a" ++ [8232%N] ++ js "x.png").
Proof. reflexivity. Qed.

Example extract_name_ending_in_bracket :
  extractFileName (js "![[a.png]]]") = Some (js "a.png").
Proof. reflexivity. Qed.

Example extract_nested_open :
  extractFileName (js "![[a![[b.png]]") = Some (js "b.png").
Proof. reflexivity. Qed.

Example extract_empty_embed :
  extractFileName (js "![[]]") = None.
Proof. reflexivity. Qed.

(** A name without a dot is its own extension. *)
Example resolve_bare_png :
  resolveLine (js "![[png]]") = Some (js "png").
Proof. reflexivity. Qed.

(* ================================================================== *)
(** * Further properties of the code *)

(** ** Logs *)

Lemma detach_resolves (m : M unit) : snd (detach m) = Resolved tt.
Proof. destruct m as [tr [[]|e]]; reflexivity. Qed.

Lemma forEachAsync_resolves {A} (f : A -> M unit) (l : list A) :
  snd (forEachAsync f l) = Resolved tt.
Proof.
  induction l as [|x l IH]; [reflexivity|].
  cbn [forEachAsync]. unfold bind.
  destruct (detach (f x)) as [tr r] eqn:E.
  pose proof (detach_resolves (f x)) as H. rewrite E in H. cbn in H. subst r.
  destruct (forEachAsync f l) as [tr' r']. exact IH.
Qed.

Lemma forEachAsync_trace {A} (f : A -> M unit) (x : A) (l : list A) :
  trace (forEachAsync f (x :: l))
  = trace (detach (f x)) ++ trace (forEachAsync f l).
Proof.
  cbn [forEachAsync]. unfold bind, trace.
  destruct (detach (f x)) as [tr r] eqn:E.
  pose proof (detach_resolves (f x)) as H. rewrite E in H. cbn in H. subst r.
  now destruct (forEachAsync f l).
Qed.

Lemma invoke_resolved (m : M unit) : snd m = Resolved tt -> invoke m = trace m.
Proof. destruct m as [tr r]. cbn. now intros ->. Qed.

Lemma fetchedUrls_app (a b : list Effect) :
  fetchedUrls (a ++ b) = fetchedUrls a ++ fetchedUrls b.
Proof. apply flat_map_app. Qed.

Lemma clipboardWrites_app (a b : list Effect) :
  clipboardWrites (a ++ b) = clipboardWrites a ++ clipboardWrites b.
Proof. apply flat_map_app. Qed.

(** ** The command path, continued *)

Lemma copyVaultFile_fetches (w : World) (name : t) (f : TFile) :
  fetchedUrls (trace (detach (copyVaultFile w name f)))
  = if eqb (fileName f) name then [getResourcePath w (filePath f)] else [].
Proof.
  unfold copyVaultFile, copyNonPngToClipboard, await.
  destruct (eqb (fileName f) name); [|reflexivity].
  repeat (cbn -[js eqb copyPngToClipboard];
          rewrite ?copyPngToClipboard_trace; unfold writeNotice;
          try case_host).
  all: reflexivity.
Qed.

Lemma handleCommand_resolves (w : World) (files : list TFile) (line : t) :
  snd (handleCommand w files line) = Resolved tt.
Proof.
  rewrite handleCommand_resolve. destruct (resolveLine line); [|reflexivity].
  apply forEachAsync_resolves.
Qed.

Lemma handleCommand_fetches (w : World) (files : list TFile) (line name : t) :
  resolveLine line = Some name ->
  fetchedUrls (invoke (handleCommand w files line))
  = map (fun f => getResourcePath w (filePath f)) (filesNamed name files).
Proof.
  intros Hres.
  rewrite invoke_resolved by apply handleCommand_resolves.
  rewrite handleCommand_resolve, Hres.
  induction files as [|f files IH]; [reflexivity|].
  rewrite forEachAsync_trace, fetchedUrls_app, copyVaultFile_fetches, IH.
  cbn [filesNamed filter]. now destruct (eqb (fileName f) name).
Qed.

(** X1. When the line resolves to a name, the command fetches the resource
    path of every vault file of exactly that name, once each and in the
    order of the file list (files of the same name in several folders are
    all copied), and fetches nothing else. Its own promise is resolved,
    whatever happens to the copies. *)
Theorem X1_command_fetches_every_file_of_that_name
        (w : World) (files : list TFile) (line name : t) :
  resolveLine line = Some name ->
  fetchedUrls (invoke (handleCommand w files line))
  = map (fun f => getResourcePath w (filePath f)) (filesNamed name files)
  /\ snd (handleCommand w files line) = Resolved tt.
Proof.
  intros Hres. split; [now apply handleCommand_fetches | apply handleCommand_resolves].
Qed.

Lemma X1_witness :
  let w := hostWith (inr (blobOf "image/png" [137%N])) (inl []) None true None in
  fetchedUrls
    (invoke (handleCommand w
               [{| fileName := js "a.png"; filePath := js "x/a.png" |};
                {| fileName := js "b.png"; filePath := js "b.png" |};
                {| fileName := js "a.png"; filePath := js "y/a.png" |}]
               (js "![[a.png]]")))
  = [js "app://local/x/a.png"; js "app://local/y/a.png"].
Proof.
  exact (proj1 (@X1_command_fetches_every_file_of_that_name
                  (hostWith (inr (blobOf "image/png" [137%N])) (inl []) None true None)
                  [{| fileName := js "a.png"; filePath := js "x/a.png" |};
                   {| fileName := js "b.png"; filePath := js "b.png" |};
                   {| fileName := js "a.png"; filePath := js "y/a.png" |}]
                  (js "![[a.png]]") (js "a.png") eq_refl)).
Defined.

(** X2. The command path never rasterizes: whatever the line, the vault
    and the host, no image is drawn on a canvas and no object URL is
    revoked. A file whose blob has type [image/svg+xml] goes to the raster
    decoder like any other non-PNG blob. *)
Theorem X2_command_never_draws
        (w : World) (files : list TFile) (line : t) (f : TFile) (b : Blob) :
  existsb isDraw (invoke (handleCommand w files line)) = false
  /\ existsb isRevoke (invoke (handleCommand w files line)) = false
  /\ (fetchBlob w (getResourcePath w (filePath f)) = inr b ->
      blobType b = svgType ->
      exists rest,
        invoke (copyVaultFile w (fileName f) f)
        = [Notice (js "Copying the image...");
           Fetch (getResourcePath w (filePath f));
           CreateObjectURL b (createObjectURL w b);
           JimpRead (createObjectURL w b)] ++ rest).
Proof.
  assert (Hquiet : forall name g,
             always (fun e => isDraw e = false /\ isRevoke e = false)
                    (copyVaultFile w name g)).
  { intros name g. unfold always, copyVaultFile, copyNonPngToClipboard, await.
    destruct (eqb (fileName g) name); [|constructor].
    repeat (cbn -[js eqb copyPngToClipboard];
            rewrite ?copyPngToClipboard_trace; unfold writeNotice;
            try case_host).
    all: repeat constructor. }
  assert (Hall : Forall (fun e => isDraw e = false /\ isRevoke e = false)
                        (invoke (handleCommand w files line))).
  { rewrite invoke_resolved by apply handleCommand_resolves.
    rewrite handleCommand_resolve. destruct (resolveLine line).
    - apply always_forEachAsync; [intros; now split | intros; apply Hquiet].
    - repeat constructor. }
  split; [|split].
  - destruct (existsb isDraw _) eqn:E; [|reflexivity].
    apply existsb_exists in E as (e & Hin & He).
    rewrite Forall_forall in Hall. destruct (Hall e Hin). congruence.
  - destruct (existsb isRevoke _) eqn:E; [|reflexivity].
    apply existsb_exists in E as (e & Hin & He).
    rewrite Forall_forall in Hall. destruct (Hall e Hin). congruence.
  - intros Hfetch Hsvg. unfold invoke, copyVaultFile, copyNonPngToClipboard.
    rewrite eqb_refl. cbn [bind notice emit]. rewrite Hfetch. cbn [await ret bind].
    rewrite Hsvg. cbn [eqb svgType pngType N.eqb Pos.eqb andb].
    cbn [bind emit].
    destruct (jimpToPng w (createObjectURL w b)) as [msg|buffer];
      cbn -[js copyPngToClipboard]; rewrite ?copyPngToClipboard_trace;
      cbn -[js]; eexists; reflexivity.
Qed.

Lemma X2_witness :
  let b := blobOf "image/svg+xml" [60%N] in
  let w := hostWith (inr b) (inl (js "Could not find MIME for Buffer")) None true None in
  let f := {| fileName := js "d.png"; filePath := js "d.png" |} in
  exists rest,
    invoke (copyVaultFile w (js "d.png") f)
    = [Notice (js "Copying the image..."); Fetch (js "app://local/d.png");
       CreateObjectURL b (js "blob:1"); JimpRead (js "blob:1")] ++ rest.
Proof.
  exact (proj2 (proj2 (@X2_command_never_draws
                         (hostWith (inr (blobOf "image/svg+xml" [60%N]))
                                   (inl (js "Could not find MIME for Buffer"))
                                   None true None)
                         [] []
                         {| fileName := js "d.png"; filePath := js "d.png" |}
                         (blobOf "image/svg+xml" [60%N])))
               eq_refl eq_refl).
Defined.

(** ** The resolver, continued *)

Lemma starGreedy_inv {R} (p : N -> bool) (k : t -> option R) (s : t) (r : R) :
  starGreedy p s k = Some r -> exists a b, s = a ++ b /\ k b = Some r.
Proof.
  induction s as [|c s IH]; simpl.
  - intros H. now exists [], [].
  - destruct (p c).
    + destruct (starGreedy p s k) eqn:E.
      * intros [= <-]. destruct (IH eq_refl) as (a & b & -> & Hb).
        now exists (c :: a), b.
      * intros H. now exists [], (c :: s).
    + intros H. now exists [], (c :: s).
Qed.

Lemma embedRegex_inv (s : t) r :
  matchAt embedRegex s = Some r -> hasEmbed s = true.
Proof.
  unfold matchAt, embedRegex. cbn [matcher]. intros H.
  apply starGreedy_inv in H as (a & b & -> & H).
  apply embedBody_inv in H as (x & y & ->). apply hasEmbed_app.
Qed.

Lemma exec_without_embed (s : t) :
  hasEmbed s = false -> exec embedRegex s = None.
Proof.
  induction s as [|c s IH]; intros H; cbn [exec].
  - reflexivity.
  - destruct (matchAt embedRegex (c :: s)) as [[rest cap]|] eqn:E.
    + apply embedRegex_inv in E. congruence.
    + cbn [hasEmbed] in H. apply orb_false_iff in H as [_ H].
      now rewrite IH.
Qed.

(** X3. An embed that is never closed is not refused by the parse. When no
    [![[] on the line has a []]] after it, the pattern does not match and
    [replace] returns the line as it is; if the line holds [![[] and no
    [|], the whole line is taken as the file name. *)
Theorem X3_unclosed_embed_keeps_the_line (line : t) :
  hasEmbed line = false ->
  replaceWithGroup1 embedRegex line = line
  /\ (includes embedOpen line = true ->
      includes [pipe] line = false ->
      extractFileName line = Some line).
Proof.
  intros Hno.
  assert (Hrep : replaceWithGroup1 embedRegex line = line).
  { unfold replaceWithGroup1. now rewrite exec_without_embed. }
  split; [exact Hrep|]. intros Hopen Hpipe.
  unfold extractFileName. rewrite Hopen, Hrep, Hpipe. cbn [negb].
  destruct line; [discriminate | reflexivity].
Qed.

Lemma X3_witness :
  replaceWithGroup1 embedRegex (js "see ![[a.png") = js "see ![[a.png"
  /\ extractFileName (js "see ![[a.png") = Some (js "see ![[a.png").
Proof.
  destruct (@X3_unclosed_embed_keeps_the_line (js "see ![[a.png") eq_refl) as [H1 H2].
  split; [exact H1 | exact (H2 eq_refl eq_refl)].
Defined.

Lemma split_cons (sep : N) (s : t) : exists h tl, split sep s = h :: tl.
Proof.
  induction s as [|c s (h & tl & E)]; simpl; [now exists [], []|].
  destruct (N.eqb c sep); [now eexists _, _|].
  rewrite E. now eexists _, _.
Qed.

Lemma split_twice (sep : N) (s : t) :
  In sep s -> exists h x tl, split sep s = h :: x :: tl.
Proof.
  induction s as [|c s IH]; simpl; [tauto|]. intros Hin.
  destruct (N.eqb_spec c sep) as [->|Hne].
  - destruct (split_cons sep s) as (h & tl & ->). now eexists _, _, _.
  - destruct Hin as [->|Hin]; [congruence|].
    destruct (IH Hin) as (h & x & tl & ->). now eexists _, _, _.
Qed.

Lemma split_single (sep : N) (s h : t) : split sep s = [h] -> s = h.
Proof.
  revert h. induction s as [|c s IH]; simpl; intros h.
  - now intros [= <-].
  - destruct (N.eqb c sep).
    + destruct (split_cons sep s) as (x & tl & ->). discriminate.
    + destruct (split sep s) as [|x [|y tl]] eqn:E; intros [= <-].
      * destruct (split_cons sep s) as (? & ? & E'). congruence.
      * now rewrite (IH x eq_refl).
Qed.

Lemma pop_cons (x y : t) (l : list t) : pop (x :: y :: l) = pop (y :: l).
Proof. reflexivity. Qed.

(** The last piece of a split is what follows the last separator. *)
Lemma pop_split_last (sep : N) (base ext : t) :
  ~ In sep ext -> pop (split sep (base ++ sep :: ext)) = Some ext.
Proof.
  intros Hno. induction base as [|c base IH]; cbn [app split].
  - rewrite N.eqb_refl, split_without by assumption. reflexivity.
  - destruct (split_twice sep (base ++ sep :: ext)) as (h & x & tl & E).
    { apply in_or_app. right. now left. }
    rewrite E in *. destruct (N.eqb c sep); rewrite !pop_cons in *; exact IH.
Qed.

(** The last piece of a split is a suffix of the string. *)
Lemma pop_split_suffix (sep : N) (s e : t) :
  pop (split sep s) = Some e -> exists base, s = base ++ e.
Proof.
  revert e. induction s as [|c s IH]; intros e; cbn [split].
  - intros [= <-]. now exists [].
  - destruct (N.eqb c sep).
    + destruct (split_cons sep s) as (h & tl & E). rewrite E in *.
      rewrite pop_cons. intros H. destruct (IH e H) as [base ->].
      now exists (c :: base).
    + destruct (split sep s) as [|h [|x tl]] eqn:E.
      * destruct (split_cons sep s) as (? & ? & E'). congruence.
      * intros [= <-]. apply split_single in E. subst s. now exists [].
      * rewrite pop_cons. intros H. destruct (IH e H) as [base ->].
        now exists (c :: base).
Qed.

Lemma hd_split_clean (sep : N) (s : t) : ~ In sep (hd [] (split sep s)).
Proof.
  induction s as [|c s IH]; simpl; [tauto|].
  destruct (N.eqb_spec c sep) as [->|Hne]; [simpl; tauto|].
  destruct (split sep s) as [|h tl]; simpl in *; intuition congruence.
Qed.

(** X4. The extension is what follows the last dot of the name: for a
    name [base.ext] where [ext] has no dot it is [ext], whatever dots
    [base] has; and a name without any dot is its own extension. *)
Theorem X4_extension_follows_the_last_dot (base ext : t) :
  includes [dot] ext = false ->
  extensionOf (base ++ dot :: ext) = Some ext
  /\ extensionOf ext = Some ext.
Proof.
  intros H.
  assert (Hno : ~ In dot ext).
  { intros Hin. apply includes_char in Hin. congruence. }
  unfold extensionOf. split.
  - now apply pop_split_last.
  - now rewrite split_without.
Qed.

Lemma X4_witness :
  extensionOf (js "my.holiday.photo.jpeg") = Some (js "jpeg")
  /\ extensionOf (js "jpeg") = Some (js "jpeg").
Proof.
  exact (@X4_extension_follows_the_last_dot (js "my.holiday.photo") (js "jpeg") eq_refl).
Defined.

Lemma supported_has_no_dot (ext : t) :
  arrayIncludes supportedExtensions ext = true ->
  includes [dot] ext = false /\ ext <> [].
Proof.
  unfold arrayIncludes. intros H. apply existsb_exists in H as (x & Hin & Hx).
  apply eqb_eq in Hx. subst x.
  cbn [supportedExtensions In] in Hin.
  repeat destruct Hin as [<-|Hin]; try (split; [reflexivity | discriminate]).
  destruct Hin.
Qed.

Lemma extractFileName_clean (line name : t) :
  extractFileName line = Some name -> includes [pipe] name = false.
Proof.
  unfold extractFileName.
  destruct (negb (includes embedOpen line)); [discriminate|].
  destruct (eqb (replaceWithGroup1 embedRegex line) []); [discriminate|].
  destruct (includes [pipe] (replaceWithGroup1 embedRegex line)) eqn:E;
    intros [= <-]; [|exact E].
  destruct (includes [pipe] (hd [] (split pipe (replaceWithGroup1 embedRegex line))))
    eqn:E'; [|reflexivity].
  apply includes_char in E'. now apply hd_split_clean in E'.
Qed.

(** X5. From the line to the network: for an embed [![[base.ext]]] or
    [![[base.ext|alias]]] that is the last on its line, with [ext] one of
    the six supported extensions (and the side conditions of the
    extraction), the line resolves to [base.ext] and the command fetches
    exactly the vault files of that name. *)
Theorem X5_supported_embed_is_fetched
        (w : World) (files : list TFile) (pre base ext post : t) (alias : option t) :
  singleLine (pre ++ embedOpen ++ embedText (base ++ dot :: ext) alias
              ++ embedClose ++ post) = true ->
  includes [pipe] (base ++ dot :: ext) = false ->
  includes embedClose (embedText (base ++ dot :: ext) alias ++ [closeBracket]) = false ->
  hasEmbed (embedText (base ++ dot :: ext) alias ++ embedClose ++ post) = false ->
  arrayIncludes supportedExtensions ext = true ->
  resolveLine (pre ++ embedOpen ++ embedText (base ++ dot :: ext) alias
               ++ embedClose ++ post) = Some (base ++ dot :: ext)
  /\ fetchedUrls
       (invoke (handleCommand w files
                  (pre ++ embedOpen ++ embedText (base ++ dot :: ext) alias
                   ++ embedClose ++ post)))
     = map (fun f => getResourcePath w (filePath f))
           (filesNamed (base ++ dot :: ext) files).
Proof.
  intros Hline Hpipe Hclose Hlast Hext.
  assert (Hres : resolveLine (pre ++ embedOpen ++ embedText (base ++ dot :: ext) alias
                              ++ embedClose ++ post) = Some (base ++ dot :: ext)).
  { unfold resolveLine.
    rewrite (@extract_last_embed pre (base ++ dot :: ext) post alias Hline)
      by (assumption || now destruct base).
    destruct (supported_has_no_dot ext Hext) as [Hdot Hne].
    cbv zeta. unfold extensionOf. rewrite pop_split_last.
    - destruct ext; [congruence|]. cbn [falsy]. now rewrite Hext.
    - intros Hin. apply includes_char in Hin. congruence. }
  split; [exact Hres | now apply handleCommand_fetches].
Qed.

Lemma X5_witness :
  let w := hostWith (inr (blobOf "image/png" [137%N])) (inl []) None true None in
  let files := [{| fileName := js "cat.v2.png"; filePath := js "pets/cat.v2.png" |};
                {| fileName := js "cat.png"; filePath := js "cat.png" |}] in
  resolveLine (js "look: ![[cat.v2.png|200]] !") = Some (js "cat.v2.png")
  /\ fetchedUrls (invoke (handleCommand w files (js "look: ![[cat.v2.png|200]] !")))
     = [js "app://local/pets/cat.v2.png"].
Proof.
  exact (@X5_supported_embed_is_fetched
           (hostWith (inr (blobOf "image/png" [137%N])) (inl []) None true None)
           [{| fileName := js "cat.v2.png"; filePath := js "pets/cat.v2.png" |};
            {| fileName := js "cat.png"; filePath := js "cat.png" |}]
           (js "look: ") (js "cat.v2") (js "png") (js " !") (Some (js "200"))
           eq_refl eq_refl eq_refl eq_refl eq_refl).
Defined.

(** X6. Whatever the line, a name the resolver lets through has no [|]
    in it and ends in one of the six supported extensions, which is its
    last dot-separated piece; so every file the command looks for has such
    a name. *)
Theorem X6_resolved_names_are_clean (line name : t) :
  resolveLine line = Some name ->
  includes [pipe] name = false
  /\ exists base ext,
       name = base ++ ext
       /\ extensionOf name = Some ext
       /\ arrayIncludes supportedExtensions ext = true.
Proof.
  unfold resolveLine.
  destruct (extractFileName line) as [n|] eqn:En; [|discriminate].
  cbv zeta. destruct (extensionOf n) as [e|] eqn:Ee; [|discriminate].
  destruct (falsy (Some e)); [discriminate|].
  destruct (arrayIncludes supportedExtensions e) eqn:Ea; [|discriminate].
  cbn [negb]. intros [= <-]. split.
  - now apply extractFileName_clean in En.
  - unfold extensionOf in Ee. destruct (pop_split_suffix _ _ Ee) as [base ->].
    exists base, e. repeat split; assumption.
Qed.

Lemma X6_witness :
  includes [pipe] (js "b.jpg") = false
  /\ exists base ext,
       js "b.jpg" = base ++ ext
       /\ extensionOf (js "b.jpg") = Some ext
       /\ arrayIncludes supportedExtensions ext = true.
Proof.
  exact (@X6_resolved_names_are_clean (js "![[a.png]] and ![[b.jpg|x]] end")
           (js "b.jpg") eq_refl).
Defined.

(** ** Focus *)

Lemma waitLoop_polls (w : World) (rounds : nat) (t0 : Z) :
  exists k : nat,
    (k <= rounds)%nat
    /\ waitLoop w rounds t0 = (t0 + 50 * Z.of_nat k)%Z
    /\ (forall j : nat, (j < k)%nat ->
          hasFocus w (t0 + 50 * Z.of_nat j)%Z = false
          /\ (t0 + 50 * Z.of_nat j < 2000)%Z)
    /\ ((k < rounds)%nat ->
          hasFocus w (t0 + 50 * Z.of_nat k)%Z = true
          \/ (2000 <= t0 + 50 * Z.of_nat k)%Z).
Proof.
  revert t0. induction rounds as [|n IH]; intros t0.
  - exists 0%nat. cbn [waitLoop]. repeat split; try lia.
  - cbn [waitLoop].
    destruct (negb (hasFocus w t0) && (t0 <? 2000)%Z) eqn:E.
    + apply andb_true_iff in E as [Ef Et].
      apply negb_true_iff in Ef. apply Z.ltb_lt in Et.
      destruct (IH (t0 + 50)%Z) as (k & Hk & Hr & Hbefore & Hexit).
      exists (S k). repeat split.
      * lia.
      * rewrite Hr. lia.
      * destruct j as [|j].
        -- now replace (t0 + 50 * Z.of_nat 0)%Z with t0 by lia.
        -- replace (t0 + 50 * Z.of_nat (S j))%Z with (t0 + 50 + 50 * Z.of_nat j)%Z by lia.
           apply Hbefore. lia.
      * destruct j as [|j].
        -- replace (t0 + 50 * Z.of_nat 0)%Z with t0 by lia. exact Et.
        -- replace (t0 + 50 * Z.of_nat (S j))%Z with (t0 + 50 + 50 * Z.of_nat j)%Z by lia.
           apply Hbefore. lia.
      * intros Hlt.
        replace (t0 + 50 * Z.of_nat (S k))%Z with (t0 + 50 + 50 * Z.of_nat k)%Z by lia.
        apply Hexit. lia.
    + exists 0%nat. replace (t0 + 50 * Z.of_nat 0)%Z with t0 by lia.
      repeat split; try lia.
      intros _. apply andb_false_iff in E as [E|E].
      * left. now apply negb_false_iff in E.
      * right. apply Z.ltb_ge in E. exact E.
Qed.

Lemma waitLoop_focus (w : World) :
  hasFocus w (waitLoop w 40 0) = true
  <-> exists k : nat, (k <= 40)%nat /\ hasFocus w (50 * Z.of_nat k)%Z = true.
Proof.
  destruct (waitLoop_polls w 40 0) as (k & Hk & Hr & Hbefore & Hexit).
  rewrite Hr. cbn [Z.add]. split.
  - intros H. now exists k.
  - intros (k0 & Hk0 & Hf).
    assert (Hle : (k <= k0)%nat).
    { destruct (Nat.le_gt_cases k k0) as [H|H]; [exact H|].
      destruct (Hbefore k0 H) as [Hno _]. cbn [Z.add] in Hno. congruence. }
    destruct (Nat.eq_dec k 40) as [->|Hne].
    + now replace k0 with 40%nat in Hf by lia.
    + destruct (Hexit ltac:(lia)) as [H|H]; [exact H | lia].
Qed.

(** X7. [waitForFocus] looks at the focus after 0, 50, 100, ... 2000 ms
    of waiting, forty-one times at most: it succeeds exactly when the
    window has the focus at one of these moments, and otherwise throws
    "Cannot copy image to clipboard without Obsidian app focused.". It has
    no effect of its own. *)
Theorem X7_waitForFocus_polls_for_two_seconds (w : World) :
  (waitForFocus w = ret tt
   <-> exists k : nat, (k <= 40)%nat /\ hasFocus w (50 * Z.of_nat k)%Z = true)
  /\ (waitForFocus w = ret tt
      \/ waitForFocus w
         = throw (ErrorObject
                    (js "Cannot copy image to clipboard without Obsidian app focused."))).
Proof.
  unfold waitForFocus. split.
  - rewrite <- waitLoop_focus.
    destruct (hasFocus w (waitLoop w 40 0)); cbn [negb]; split;
      (reflexivity || discriminate).
  - destruct (hasFocus w (waitLoop w 40 0)); [now left | now right].
Qed.

Lemma never_focused (w : World) :
  (forall k : nat, (k <= 40)%nat -> hasFocus w (50 * Z.of_nat k)%Z = false) ->
  hasFocus w (waitLoop w 40 0) = false.
Proof.
  intros H. destruct (hasFocus w (waitLoop w 40 0)) eqn:E; [|reflexivity].
  apply waitLoop_focus in E as (k & Hk & Hf). rewrite H in Hf by exact Hk.
  discriminate.
Qed.

(** X8. Without the focus there is no copy. If the window has the focus
    at none of the polls, the menu option fetches nothing and writes
    nothing to the clipboard: after "Copying the image..." (and the attempt
    to open the window, when it was not focused to begin with) it shows the
    error of [trySetFocus] or of [waitForFocus] as a notice, and ends
    normally. *)
Theorem X8_menu_needs_focus (w : World) (p : Plugin) :
  (forall k : nat, (k <= 40)%nat -> hasFocus w (50 * Z.of_nat k)%Z = false) ->
  handleMenuOption w p
  = (Notice (js "Copying the image...")
     :: (if hasFocusInitially w then [] else [WindowOpen])
     ++ [Notice (if negb (hasFocusInitially w) && negb (windowOpen w)
                 then js "Failed to focus Obsidian app."
                 else js "Cannot copy image to clipboard without Obsidian app focused.")],
     Resolved tt).
Proof.
  intros H. apply never_focused in H.
  unfold handleMenuOption, trySetFocus, waitForFocus. rewrite H.
  destruct (hasFocusInitially w); [|destruct (windowOpen w)]; reflexivity.
Qed.

Lemma X8_witness :
  let w := {| getResourcePath := fun path => path;
              fetchBlob := fun _ => inr (blobOf "image/png" [137%N]);
              createObjectURL := fun _ => js "blob:1";
              jimpToPng := fun _ => inl [];
              clipboardWrite := fun _ => None;
              imageLoad := fun _ => None;
              canvasContext2d := true;
              canvasToBlob := fun _ _ => None;
              hasFocusInitially := false;
              windowOpen := true;
              hasFocus := fun _ => false |} in
  handleMenuOption w {| touchTime := 0; targetImage := Some {| src := js "app://a.png" |};
                        svgToPngScale := 4 |}
  = ([Notice (js "Copying the image..."); WindowOpen;
      Notice (js "Cannot copy image to clipboard without Obsidian app focused.")],
     Resolved tt).
Proof.
  cbv zeta.
  exact (@X8_menu_needs_focus
           {| getResourcePath := fun path => path;
              fetchBlob := fun _ => inr (blobOf "image/png" [137%N]);
              createObjectURL := fun _ => js "blob:1";
              jimpToPng := fun _ => inl [];
              clipboardWrite := fun _ => None;
              imageLoad := fun _ => None;
              canvasContext2d := true;
              canvasToBlob := fun _ _ => None;
              hasFocusInitially := false;
              windowOpen := true;
              hasFocus := fun _ => false |}
           {| touchTime := 0; targetImage := Some {| src := js "app://a.png" |};
              svgToPngScale := 4 |}
           (fun _ _ => eq_refl)).
Defined.

Lemma waitLoop_focused (w : World) :
  hasFocus w 0 = true -> waitLoop w 40 0 = 0%Z.
Proof. intros H. cbn [waitLoop]. now rewrite H. Qed.

(** X9. On the context-menu path an error of the pipeline is shown to the
    user as it is. With the window focused and an image targeted: when the
    fetch fails, the notice after "Copying the image..." is the message of
    the fetch error; when the decoder rejects a blob that is neither PNG nor
    SVG, it is the message of the decoder. Nothing is written to the
    clipboard and the handler ends normally. *)
Theorem X9_menu_shows_the_error_message
        (w : World) (p : Plugin) (img : ImgElement) (msg : t) (b : Blob) :
  hasFocusInitially w = true ->
  hasFocus w 0 = true ->
  targetImage p = Some img ->
  (fetchBlob w (src img) = inl msg ->
   handleMenuOption w p
   = ([Notice (js "Copying the image..."); Fetch (src img); Notice msg], Resolved tt))
  /\ (fetchBlob w (src img) = inr b ->
      eqb (blobType b) pngType = false ->
      eqb (blobType b) svgType = false ->
      jimpToPng w (createObjectURL w b) = inl msg ->
      handleMenuOption w p
      = ([Notice (js "Copying the image..."); Fetch (src img);
          CreateObjectURL b (createObjectURL w b); JimpRead (createObjectURL w b);
          Notice msg], Resolved tt)).
Proof.
  intros Hinit Hfocus Htarget.
  unfold handleMenuOption, trySetFocus, waitForFocus, copyImageToClipboard.
  rewrite Hinit, (waitLoop_focused w Hfocus), Hfocus, Htarget.
  cbn [negb option_map srcOf]. split.
  - intros ->. reflexivity.
  - intros Hfetch Hpng Hsvg Hjimp. rewrite Hfetch.
    cbn [notice emit bind await ret]. rewrite Hpng, Hsvg.
    unfold copyNonPngToClipboard. rewrite Hjimp. reflexivity.
Qed.

Lemma X9_witness :
  let b := blobOf "image/webp" [82%N] in
  let p := {| touchTime := 0; targetImage := Some {| src := js "app://a.webp" |};
              svgToPngScale := 4 |} in
  handleMenuOption (hostWith (inl (js "Failed to fetch")) (inl []) None true None) p
  = ([Notice (js "Copying the image..."); Fetch (js "app://a.webp");
      Notice (js "Failed to fetch")], Resolved tt)
  /\ handleMenuOption (hostWith (inr b) (inl (js "Unsupported MIME type: image/webp"))
                                None true None) p
     = ([Notice (js "Copying the image..."); Fetch (js "app://a.webp");
         CreateObjectURL b (js "blob:1"); JimpRead (js "blob:1");
         Notice (js "Unsupported MIME type: image/webp")], Resolved tt).
Proof.
  cbv zeta. split.
  - exact (proj1 (@X9_menu_shows_the_error_message
                    (hostWith (inl (js "Failed to fetch")) (inl []) None true None)
                    {| touchTime := 0; targetImage := Some {| src := js "app://a.webp" |};
                       svgToPngScale := 4 |}
                    {| src := js "app://a.webp" |} (js "Failed to fetch")
                    (blobOf "image/webp" [82%N]) eq_refl eq_refl eq_refl) eq_refl).
  - exact (proj2 (@X9_menu_shows_the_error_message
                    (hostWith (inr (blobOf "image/webp" [82%N]))
                              (inl (js "Unsupported MIME type: image/webp")) None true None)
                    {| touchTime := 0; targetImage := Some {| src := js "app://a.webp" |};
                       svgToPngScale := 4 |}
                    {| src := js "app://a.webp" |} (js "Unsupported MIME type: image/webp")
                    (blobOf "image/webp" [82%N]) eq_refl eq_refl eq_refl)
                 eq_refl eq_refl eq_refl eq_refl).
Defined.

(** ** The desktop regime *)

Lemma handleContextMenu_target (p : Plugin) (e : Target) :
  targetImage (handleContextMenu p e)
  = match e with
    | ImgTarget img => Some img
    | OtherTarget => None
    end
  /\ touchTime (handleContextMenu p e) = touchTime p
  /\ svgToPngScale (handleContextMenu p e) = svgToPngScale p.
Proof.
  destruct e as [img|]; cbn [handleContextMenu]; [now repeat split|].
  destruct (targetImage p) eqn:E; now repeat split.
Qed.

Lemma contextMenus_frame (evts : list Target) (p : Plugin) :
  touchTime (contextMenus p evts) = touchTime p
  /\ svgToPngScale (contextMenus p evts) = svgToPngScale p.
Proof.
  revert p. induction evts as [|e evts IH]; intros p; [now split|].
  cbn [contextMenus fold_left]. fold (contextMenus (handleContextMenu p e) evts).
  destruct (IH (handleContextMenu p e)) as [H1 H2].
  destruct (handleContextMenu_target p e) as (_ & H3 & H4). split; congruence.
Qed.

(** X10. The last right-click decides. After any series of [contextmenu]
    events the targeted image is the element of the last one if that is an
    image, and none otherwise; the editor menu then gets the entry "Copy
    image to clipboard", enabled, in the first case and is left as it is in
    the second. The handler changes neither [touchTime] nor the scale. *)
Theorem X10_last_context_menu_decides
        (p : Plugin) (evts : list Target) (e : Target) (menu : list MenuItem) :
  targetImage (contextMenus p (evts ++ [e]))
  = match e with
    | ImgTarget img => Some img
    | OtherTarget => None
    end
  /\ onEditorMenu (contextMenus p (evts ++ [e])) menu
     = match e with
       | ImgTarget _ =>
           menu ++ [{| title := js "Copy image to clipboard"; icon := js "image";
                       disabled := false |}]
       | OtherTarget => menu
       end
  /\ touchTime (contextMenus p (evts ++ [e])) = touchTime p
  /\ svgToPngScale (contextMenus p (evts ++ [e])) = svgToPngScale p.
Proof.
  assert (Ht : targetImage (contextMenus p (evts ++ [e]))
               = match e with
                 | ImgTarget img => Some img
                 | OtherTarget => None
                 end).
  { unfold contextMenus. rewrite fold_left_app. cbn [fold_left].
    apply handleContextMenu_target. }
  split; [exact Ht|]. split; [|apply contextMenus_frame].
  unfold onEditorMenu. rewrite Ht. now destruct e.
Qed.

(** X11. What the menu entry copies. With the window focused, a click on
    the entry after a right-click on an image fetches the [src] of that
    image, whatever was right-clicked before; after a right-click elsewhere
    a call of [handleMenuOption] shows "Copying the image..." and does
    nothing more. *)
Theorem X11_menu_copies_the_last_target
        (w : World) (p : Plugin) (evts : list Target) (img : ImgElement) :
  hasFocusInitially w = true ->
  hasFocus w 0 = true ->
  (exists rest,
     trace (handleMenuOption w (contextMenus p (evts ++ [ImgTarget img])))
     = Notice (js "Copying the image...") :: Fetch (src img) :: rest)
  /\ handleMenuOption w (contextMenus p (evts ++ [OtherTarget]))
     = ([Notice (js "Copying the image...")], Resolved tt).
Proof.
  intros Hinit Hfocus.
  unfold handleMenuOption, trySetFocus, waitForFocus.
  rewrite Hinit, (waitLoop_focused w Hfocus), Hfocus. cbn [negb].
  unfold contextMenus. rewrite !fold_left_app. cbn [fold_left].
  split.
  - destruct (handleContextMenu_target (fold_left handleContextMenu evts p)
                                       (ImgTarget img)) as (Ht & _).
    unfold copyImageToClipboard. rewrite Ht. cbn [option_map srcOf].
    cbn [bind notice emit ret].
    match goal with
    | |- context [bind (await ?x) ?f] => destruct (bind (await x) f) as [tr [[]|[m|]]]
    end; cbn; eexists; reflexivity.
  - destruct (handleContextMenu_target (fold_left handleContextMenu evts p)
                                       OtherTarget) as (Ht & _).
    unfold copyImageToClipboard. rewrite Ht. reflexivity.
Qed.

Lemma X11_witness :
  let w := hostWith (inr (blobOf "image/png" [137%N])) (inl []) None true None in
  (exists rest,
     trace (handleMenuOption w (contextMenus (pluginWith 0 4)
                                  ([ImgTarget {| src := js "app://a.png" |}; OtherTarget]
                                   ++ [ImgTarget {| src := js "app://b.png" |}])))
     = Notice (js "Copying the image...") :: Fetch (js "app://b.png") :: rest)
  /\ handleMenuOption w (contextMenus (pluginWith 0 4)
                           ([ImgTarget {| src := js "app://a.png" |}] ++ [OtherTarget]))
     = ([Notice (js "Copying the image...")], Resolved tt).
Proof.
  cbv zeta. split.
  - exact (proj1 (@X11_menu_copies_the_last_target
                    (hostWith (inr (blobOf "image/png" [137%N])) (inl []) None true None)
                    (pluginWith 0 4)
                    [ImgTarget {| src := js "app://a.png" |}; OtherTarget]
                    {| src := js "app://b.png" |} eq_refl eq_refl)).
  - exact (proj2 (@X11_menu_copies_the_last_target
                    (hostWith (inr (blobOf "image/png" [137%N])) (inl []) None true None)
                    (pluginWith 0 4)
                    [ImgTarget {| src := js "app://a.png" |}]
                    {| src := js "app://b.png" |} eq_refl eq_refl)).
Defined.

(** ** The touch regime, continued *)

Section Press.
Variable w : World.

Lemma timer_of_touch (st0 : Loop) (before after : list DomEvent)
      (evt : Target) (now : Z) :
  isImage evt = true ->
  nth_error (timers (run w st0 (before ++ [TouchStart evt now] ++ after)))
            (List.length (timers (run w st0 before)))
  = Some evt.
Proof.
  intros Hevt. rewrite run_app, (run_app _ _ [TouchStart evt now]).
  apply run_keeps_timers.
  cbn [run fold_left step]. unfold handleTouchStart. rewrite Hevt.
  cbn [timers]. unfold run.
  rewrite nth_error_app2, Nat.sub_diag by reflexivity. reflexivity.
Qed.

Lemma step_keeps_press (st : Loop) (ev : DomEvent) :
  touchTime (plugin st) <> 0%Z ->
  keepsPress ev = true ->
  touchTime (plugin (step w st ev)) <> 0%Z.
Proof.
  intros Hnz Hev. destruct ev as [e now|e|k]; cbn [step keepsPress] in *.
  - unfold handleTouchStart. destruct (isImage e); cbn [plugin]; [|exact Hnz].
    cbn [negb orb setTouchTime touchTime] in *.
    apply negb_true_iff, Z.eqb_neq in Hev. exact Hev.
  - unfold handleTouchMove. destruct (isImage e); [discriminate | exact Hnz].
  - destruct (nth_error (timers st) k); exact Hnz.
Qed.

Lemma run_keeps_press (evs : list DomEvent) (st : Loop) :
  touchTime (plugin st) <> 0%Z ->
  forallb keepsPress evs = true ->
  touchTime (plugin (run w st evs)) <> 0%Z.
Proof.
  revert st. induction evs as [|ev evs IH]; intros st Hnz Hevs; [exact Hnz|].
  cbn [forallb] in Hevs. apply andb_true_iff in Hevs as [Hev Hevs].
  apply IH; [|exact Hevs]. now apply step_keeps_press.
Qed.

Lemma step_frame (st : Loop) (ev : DomEvent) :
  svgToPngScale (plugin (step w st ev)) = svgToPngScale (plugin st)
  /\ targetImage (plugin (step w st ev)) = targetImage (plugin st)
  /\ (forallb isImage (timers st) = true ->
      forallb isImage (timers (step w st ev)) = true).
Proof.
  destruct ev as [e now|e|k]; cbn [step].
  - unfold handleTouchStart. destruct (isImage e) eqn:E; cbn [plugin timers];
      repeat split; try tauto.
    intros H. rewrite forallb_app, H. cbn. now rewrite E.
  - unfold handleTouchMove. destruct (isImage e); repeat split; tauto.
  - destruct (nth_error (timers st) k); repeat split; tauto.
Qed.

End Press.

(** X12. A long press copies the pressed image. After a touch-start over
    an image at a time other than 0, if until the check no touch-move over
    an image happens (and no touch-start over an image at time 0), the check
    scheduled by that touch-start shows "Copying the image..." and fetches
    the [src] of the element that was touched then, whatever was touched
    since. *)
Theorem X12_long_press_copies_the_pressed_image
        (w : World) (st0 : Loop) (before after : list DomEvent)
        (img : ImgElement) (now : Z) :
  now <> 0%Z ->
  forallb keepsPress after = true ->
  let n := List.length (timers (run w st0 before)) in
  let st := run w st0 (before ++ [TouchStart (ImgTarget img) now] ++ after) in
  exists rest,
    ran (step w st (TimerFires n))
    = ran st ++ [(n, Notice (js "Copying the image...") :: Fetch (src img) :: rest)].
Proof.
  intros Hnow Hafter n st.
  assert (Htimer : nth_error (timers st) n = Some (ImgTarget img))
    by (apply timer_of_touch; reflexivity).
  assert (Hnz : touchTime (plugin st) <> 0%Z).
  { subst st. rewrite run_app, (run_app _ _ [TouchStart (ImgTarget img) now]).
    apply run_keeps_press; [|exact Hafter]. exact Hnow. }
  cbn [step]. rewrite Htimer. cbn [ran].
  unfold touchTimer, copyImageToClipboard, invoke.
  apply Z.eqb_neq in Hnz. rewrite Hnz. cbn [negb srcOf bind notice emit].
  match goal with
  | |- context [bind (await ?x) ?f] => destruct (bind (await x) f) as [tr [[]|e]]
  end; cbn; eexists; reflexivity.
Qed.

Lemma X12_witness :
  let w := hostWith (inr (blobOf "image/png" [137%N])) (inl []) None true None in
  let a := {| src := js "app://a.png" |} in
  let b := {| src := js "app://b.png" |} in
  let st := run w (initial 4)
                ([] ++ [TouchStart (ImgTarget a) 1000]
                 ++ [TouchMove OtherTarget; TouchStart (ImgTarget b) 1400]) in
  exists rest,
    ran (step w st (TimerFires 0))
    = ran st ++ [(0%nat, Notice (js "Copying the image...")
                         :: Fetch (js "app://a.png") :: rest)].
Proof.
  refine (@X12_long_press_copies_the_pressed_image
            (hostWith (inr (blobOf "image/png" [137%N])) (inl []) None true None)
            (initial 4) []
            [TouchMove OtherTarget; TouchStart (ImgTarget {| src := js "app://b.png" |}) 1400]
            {| src := js "app://a.png" |} 1000 _ eq_refl).
  discriminate.
Defined.

(** X13. What touch events leave alone. No sequence of touch-starts,
    touch-moves and timer checks changes the scale or the targeted image,
    and when every check scheduled so far captured an image element, so
    does every check scheduled later: on the touch path the pipeline is only
    ever given an image element. *)
Theorem X13_touch_events_keep_the_rest
        (w : World) (evs : list DomEvent) (st : Loop) :
  svgToPngScale (plugin (run w st evs)) = svgToPngScale (plugin st)
  /\ targetImage (plugin (run w st evs)) = targetImage (plugin st)
  /\ (forallb isImage (timers st) = true ->
      forallb isImage (timers (run w st evs)) = true).
Proof.
  revert st. induction evs as [|ev evs IH]; intros st; [repeat split; tauto|].
  cbn [run fold_left]. fold (run w (step w st ev) evs).
  destruct (IH (step w st ev)) as (H1 & H2 & H3).
  destruct (step_frame w st ev) as (G1 & G2 & G3).
  repeat split; try congruence. intros H. apply H3, G3, H.
Qed.

(** ** The SVG and decoder paths, continued *)

(** X14. The SVG path keeps its errors to itself: whatever the host
    answers, [copySvgToClipboard] ends normally, leaves no rejection
    unhandled, writes to the clipboard at most once and shows at least one
    notice, so that every outcome, good or bad, is reported. *)
Theorem X14_svg_path_reports_every_outcome (w : World) (p : Plugin) (b : Blob) :
  snd (copySvgToClipboard w p b) = Resolved tt
  /\ existsb isUnhandled (trace (copySvgToClipboard w p b)) = false
  /\ existsb isNotice (trace (copySvgToClipboard w p b)) = true
  /\ (List.length (clipboardWrites (trace (copySvgToClipboard w p b))) <= 1)%nat.
Proof.
  unfold copySvgToClipboard, toBlobCallback.
  repeat (cbn -[js eqb copyPngToClipboard Nat.leb];
          rewrite ?copyPngToClipboard_trace; unfold writeNotice;
          try case_host).
  all: cbn -[js]; repeat split; lia.
Qed.

(** X15. What the SVG path puts on the clipboard. When the image loads,
    a 2d context is available and the canvas hands over bytes, the one
    clipboard write carries a blob of type [image/png] with exactly these
    bytes, taken from a canvas of the size [canvas.width] and
    [canvas.height] hold after the assignment of the scaled sizes (the
    scaled sizes themselves when they fit, see [canvasSize]), and the object
    URL is revoked last. When the canvas hands over nothing, "Failed to
    convert SVG to PNG." is shown instead, and the URL is revoked all the
    same. The scaled sizes are taken up to 2^53 in absolute value, where
    the products of lines 237-238 are exact. *)
Theorem X15_svg_success_and_encoding_failure
        (w : World) (p : Plugin) (b : Blob) (iw ih : Z) :
  imageLoad w (createObjectURL w b) = Some (iw, ih) ->
  canvasContext2d w = true ->
  (Z.abs ((if iw =? 0 then 300 else iw) * svgToPngScale p) <= 9007199254740992)%Z ->
  (Z.abs ((if ih =? 0 then 300 else ih) * svgToPngScale p) <= 9007199254740992)%Z ->
  let cw := fst (canvasSize p iw ih) in
  let chh := snd (canvasSize p iw ih) in
  copySvgToClipboard w p b
  = match canvasToBlob w cw chh with
    | Some bytes =>
        let png := {| blobType := pngType; blobBytes := bytes |} in
        ([CreateObjectURL b (createObjectURL w b); DrawImage cw chh;
          ClipboardWrite pngType png; writeNotice w png;
          RevokeObjectURL (createObjectURL w b)], Resolved tt)
    | None =>
        ([CreateObjectURL b (createObjectURL w b); DrawImage cw chh;
          Notice (js "Failed to convert SVG to PNG.");
          RevokeObjectURL (createObjectURL w b)], Resolved tt)
    end.
Proof.
  intros Hload Hctx _ _ cw chh. subst cw chh.
  unfold copySvgToClipboard, toBlobCallback. rewrite Hload, Hctx.
  cbn [bind emit ret fst snd negb].
  destruct (canvasSize p iw ih) as [cw chh]. cbn [fst snd].
  destruct (canvasToBlob w cw chh) as [bytes|]; cbn [option_map].
  - rewrite copyPngToClipboard_trace. reflexivity.
  - reflexivity.
Qed.

Lemma X15_witness :
  let b := blobOf "image/svg+xml" [60%N] in
  let png := {| blobType := pngType; blobBytes := [137; 80]%N |} in
  copySvgToClipboard (hostWith (inr b) (inl []) (Some (200, 150)%Z) true (Some [137; 80]%N))
                     (pluginWith 0 4) b
  = ([CreateObjectURL b (js "blob:1"); DrawImage 800 600;
      ClipboardWrite pngType png; Notice (js "Image copied to clipboard!");
      RevokeObjectURL (js "blob:1")], Resolved tt)
  /\ copySvgToClipboard (hostWith (inr b) (inl []) (Some (500000000, 1)%Z) true None)
                        (pluginWith 0 10) b
     = ([CreateObjectURL b (js "blob:1"); DrawImage 705032704 10;
         Notice (js "Failed to convert SVG to PNG.");
         RevokeObjectURL (js "blob:1")], Resolved tt).
Proof.
  cbv zeta. split.
  - refine (@X15_svg_success_and_encoding_failure
              (hostWith (inr (blobOf "image/svg+xml" [60%N])) (inl [])
                        (Some (200, 150)%Z) true (Some [137; 80]%N))
              (pluginWith 0 4) (blobOf "image/svg+xml" [60%N]) 200 150
              eq_refl eq_refl _ _); cbn; lia.
  - refine (@X15_svg_success_and_encoding_failure
              (hostWith (inr (blobOf "image/svg+xml" [60%N])) (inl [])
                        (Some (500000000, 1)%Z) true None)
              (pluginWith 0 10) (blobOf "image/svg+xml" [60%N]) 500000000 1
              eq_refl eq_refl _ _); cbn; lia.
Defined.

(** X16. The decoder path. [copyNonPngToClipboard] creates an object URL
    for the blob and never revokes it. When the decoder gives a buffer, the
    one clipboard write carries a blob of type [image/png] with that buffer;
    when the decoder rejects, the call is rejected with the decoder's error
    and nothing is written. *)
Theorem X16_decoder_path (w : World) (b : Blob) :
  In (CreateObjectURL b (createObjectURL w b)) (trace (copyNonPngToClipboard w b))
  /\ existsb isRevoke (trace (copyNonPngToClipboard w b)) = false
  /\ copyNonPngToClipboard w b
     = match jimpToPng w (createObjectURL w b) with
       | inr buffer =>
           let png := {| blobType := pngType; blobBytes := buffer |} in
           ([CreateObjectURL b (createObjectURL w b); JimpRead (createObjectURL w b);
             ClipboardWrite pngType png; writeNotice w png], Resolved tt)
       | inl msg =>
           ([CreateObjectURL b (createObjectURL w b); JimpRead (createObjectURL w b)],
            Rejected (ErrorObject msg))
       end.
Proof.
  unfold copyNonPngToClipboard.
  destruct (jimpToPng w (createObjectURL w b)) as [msg|buffer]; cbn [await].
  - repeat split; now left.
  - cbn [bind emit ret]. rewrite copyPngToClipboard_trace. unfold writeNotice.
    destruct (clipboardWrite w _); repeat split; now left.
Qed.

(** ** One gesture, one write *)

Lemma copyVaultFile_writes (w : World) (name : t) (f : TFile) :
  (List.length (clipboardWrites (trace (detach (copyVaultFile w name f))))
   <= if eqb (fileName f) name then 1 else 0)%nat.
Proof.
  unfold copyVaultFile, copyNonPngToClipboard, await.
  destruct (eqb (fileName f) name); [|cbn; lia].
  repeat (cbn -[js eqb copyPngToClipboard Nat.leb];
          rewrite ?copyPngToClipboard_trace; unfold writeNotice;
          try case_host).
  all: cbn -[js]; lia.
Qed.

(** X17. No gesture writes twice. A run of the long-press check or of the
    menu option makes at most one clipboard write, whatever the host
    answers; a run of the command makes at most one per vault file of the
    resolved name, and none when the line does not resolve. *)
Theorem X17_at_most_one_write_per_image
        (w : World) (p : Plugin) (evt : Target) (files : list TFile) (line : t) :
  (List.length (clipboardWrites (invoke (touchTimer w p evt))) <= 1)%nat
  /\ (List.length (clipboardWrites (invoke (handleMenuOption w p))) <= 1)%nat
  /\ (List.length (clipboardWrites (invoke (handleCommand w files line)))
      <= match resolveLine line with
         | Some name => List.length (filesNamed name files)
         | None => 0
         end)%nat.
Proof.
  split; [|split].
  - unfold invoke, touchTimer, copyImageToClipboard, copySvgToClipboard,
      copyNonPngToClipboard, toBlobCallback, await.
    repeat (cbn -[js eqb copyPngToClipboard Nat.leb];
            rewrite ?copyPngToClipboard_trace; unfold writeNotice;
            try case_host).
    all: cbn -[js]; lia.
  - unfold invoke, handleMenuOption, trySetFocus, waitForFocus, copyImageToClipboard,
      copySvgToClipboard, copyNonPngToClipboard, toBlobCallback, await, noticeMessage.
    repeat (cbn -[js eqb waitLoop copyPngToClipboard Nat.leb];
            rewrite ?copyPngToClipboard_trace; unfold writeNotice;
            try case_host).
    all: cbn -[js waitLoop]; lia.
  - rewrite invoke_resolved by apply handleCommand_resolves.
    rewrite handleCommand_resolve. destruct (resolveLine line) as [name|]; [|cbn; lia].
    induction files as [|f files IH]; [cbn; lia|].
    rewrite forEachAsync_trace, clipboardWrites_app, length_app.
    pose proof (copyVaultFile_writes w name f) as H.
    unfold filesNamed in *. cbn [filter].
    destruct (eqb (fileName f) name); cbn [List.length]; lia.
Qed.

(** ** The two versions of the file *)

(** X18. The earlier version of [copyImageToClipboard], without the SVG
    branch, and the present one do the same on every image whose fetched
    blob is not of type [image/svg+xml] (and when the fetch fails, or there
    is no target); the versions differ on SVG blobs only. *)
Theorem X18_versions_differ_on_svg_only
        (w : World) (p : Plugin) (evt : option Target) (ti : option ImgElement) :
  (forall target b,
      targetOf evt ti = Some target ->
      fetchBlob w (srcOf target) = inr b ->
      eqb (blobType b) svgType = false) ->
  copyImageToClipboardOld w evt ti = copyImageToClipboard w p evt ti.
Proof.
  intros H. unfold copyImageToClipboardOld, copyImageToClipboard.
  fold (targetOf evt ti). destruct (targetOf evt ti) as [target|] eqn:Et; [|reflexivity].
  specialize (H target).
  destruct (fetchBlob w (srcOf target)) as [msg|b]; [reflexivity|].
  cbn [bind emit await ret]. rewrite (H b eq_refl eq_refl).
  reflexivity.
Qed.

Lemma X18_witness :
  let w := hostWith (inr (blobOf "image/jpeg" [255%N])) (inr [137%N]) None true None in
  copyImageToClipboardOld w (Some (ImgTarget {| src := js "app://a.jpg" |})) None
  = copyImageToClipboard w (pluginWith 1 4)
                         (Some (ImgTarget {| src := js "app://a.jpg" |})) None.
Proof.
  refine (@X18_versions_differ_on_svg_only
            (hostWith (inr (blobOf "image/jpeg" [255%N])) (inr [137%N]) None true None)
            (pluginWith 1 4) (Some (ImgTarget {| src := js "app://a.jpg" |})) None _).
  intros target b _ [= <-]. reflexivity.
Defined.

(** ** The context-menu path as a whole *)

(** X19. The menu option never fails on its caller. Whatever the host
    answers and whatever is targeted, [handleMenuOption] first shows
    "Copying the image...", ends normally, and leaves no rejection
    unhandled: every error raised under it (focus, fetch, decoder) is
    caught by its own [try]/[catch] or by those of the functions it calls. *)
Theorem X19_menu_option_never_fails (w : World) (p : Plugin) :
  (exists rest,
     handleMenuOption w p = (Notice (js "Copying the image...") :: rest, Resolved tt))
  /\ existsb isUnhandled (invoke (handleMenuOption w p)) = false.
Proof.
  unfold invoke, handleMenuOption, trySetFocus, waitForFocus, copyImageToClipboard,
    copySvgToClipboard, copyNonPngToClipboard, toBlobCallback, await, noticeMessage.
  repeat (cbn -[js eqb waitLoop copyPngToClipboard];
          rewrite ?copyPngToClipboard_trace; unfold writeNotice;
          try case_host).
  all: split; [eexists; reflexivity | reflexivity].
Qed.

(** ** Honest notices *)

Lemma honest_app (w : World) (a b : list Effect) :
  honest w a -> honest w b -> honest w (a ++ b).
Proof.
  intros Ha Hb Hin. apply in_app_or in Hin as [Hin|Hin].
  - destruct (Ha Hin) as (mime & payload & H & Hok).
    exists mime, payload. split; [apply in_or_app; now left | exact Hok].
  - destruct (Hb Hin) as (mime & payload & H & Hok).
    exists mime, payload. split; [apply in_or_app; now right | exact Hok].
Qed.

(** Closes a leaf of the case analysis: the log is explicit. *)
Ltac honest_leaf :=
  intros Hin; cbn in Hin;
  repeat (destruct Hin as [Hin|Hin]; [try discriminate Hin|]);
  first [ contradiction
        | eexists _, _; split;
          [cbn; repeat (first [left; reflexivity | right]) | eassumption] ].

Lemma copyVaultFile_honest (w : World) (name : t) (f : TFile) :
  honest w (trace (detach (copyVaultFile w name f))).
Proof.
  unfold honest, copyVaultFile, copyNonPngToClipboard, await.
  destruct (eqb (fileName f) name); [|intros []].
  repeat (cbn -[js eqb copyPngToClipboard In];
          rewrite ?copyPngToClipboard_trace; unfold writeNotice;
          try case_host).
  all: honest_leaf.
Qed.

(** X20. Success is not claimed in vain. On the long-press path and on
    the command path, whatever the host answers, the notice "Image copied to
    clipboard!" is only shown when a clipboard write of that run was
    accepted. *)
Theorem X20_copied_notice_is_honest
        (w : World) (p : Plugin) (evt : Target) (files : list TFile) (line : t) :
  honest w (invoke (touchTimer w p evt))
  /\ honest w (invoke (handleCommand w files line)).
Proof.
  split.
  - unfold honest, invoke, touchTimer, copyImageToClipboard, copySvgToClipboard,
      copyNonPngToClipboard, toBlobCallback, await.
    repeat (cbn -[js eqb copyPngToClipboard In];
            rewrite ?copyPngToClipboard_trace; unfold writeNotice;
            try case_host).
    all: honest_leaf.
  - rewrite invoke_resolved by apply handleCommand_resolves.
    rewrite handleCommand_resolve. destruct (resolveLine line) as [name|].
    + induction files as [|f files IH]; [intros []|].
      rewrite forEachAsync_trace. apply honest_app; [apply copyVaultFile_honest | exact IH].
    + intros [H|[]]. discriminate H.
Qed.

(** ** The reset of the long press, defeated *)

(** C9, where the code falls short of it. A touch-move over an image
    before the check does set [touchTime] to zero, but the check of that
    touch is not cancelled and only tests the shared field: when a later
    touch-start over an image (at a time other than 0, and not followed by
    another touch-move over an image) comes before the check, the check of
    the first touch finds the field set again, shows "Copying the image..."
    and fetches the image of the first touch. *)
Theorem C9_later_touch_defeats_the_reset
        (w : World) (st0 : Loop) (before between after : list DomEvent)
        (img img2 : ImgElement) (moved : Target) (now now2 : Z) :
  isImage moved = true ->
  now2 <> 0%Z ->
  forallb keepsPress after = true ->
  let n := List.length (timers (run w st0 before)) in
  let upToMove := before ++ [TouchStart (ImgTarget img) now] ++ between
                  ++ [TouchMove moved] in
  let st := run w st0 (upToMove ++ [TouchStart (ImgTarget img2) now2] ++ after) in
  touchTime (plugin (run w st0 upToMove)) = 0%Z
  /\ nth_error (timers st) n = Some (ImgTarget img)
  /\ exists rest,
       ran (step w st (TimerFires n))
       = ran st ++ [(n, Notice (js "Copying the image...") :: Fetch (src img) :: rest)].
Proof.
  intros Hmoved Hnow2 Hafter n upToMove st.
  assert (Hzero : touchTime (plugin (run w st0 upToMove)) = 0%Z).
  { subst upToMove. rewrite !run_app. cbn [run fold_left step].
    unfold handleTouchMove. now rewrite Hmoved. }
  assert (Htimer : nth_error (timers st) n = Some (ImgTarget img)).
  { subst st upToMove. rewrite <- !app_assoc. apply timer_of_touch. reflexivity. }
  assert (Hnz : touchTime (plugin st) <> 0%Z).
  { subst st. rewrite run_app, (run_app _ _ [TouchStart (ImgTarget img2) now2]).
    apply run_keeps_press; [exact Hnow2 | exact Hafter]. }
  split; [exact Hzero|]. split; [exact Htimer|].
  cbn [step]. rewrite Htimer. cbn [ran].
  unfold touchTimer, copyImageToClipboard, invoke.
  apply Z.eqb_neq in Hnz. rewrite Hnz. cbn [negb srcOf bind notice emit].
  match goal with
  | |- context [bind (await ?x) ?f] => destruct (bind (await x) f) as [tr [[]|e]]
  end; cbn; eexists; reflexivity.
Qed.

Lemma C9_witness :
  let png := blobOf "image/png" [137%N] in
  let w := hostWith (inr png) (inl []) None true None in
  let a := {| src := js "app://a.png" |} in
  let b := {| src := js "app://b.png" |} in
  let st := run w (initial 4)
                (([] ++ [TouchStart (ImgTarget a) 1000] ++ [] ++ [TouchMove (ImgTarget a)])
                 ++ [TouchStart (ImgTarget b) 1500] ++ []) in
  touchTime (plugin (run w (initial 4)
                         ([] ++ [TouchStart (ImgTarget a) 1000] ++ []
                          ++ [TouchMove (ImgTarget a)]))) = 0%Z
  /\ nth_error (timers st) 0 = Some (ImgTarget a)
  /\ exists rest,
       ran (step w st (TimerFires 0))
       = ran st ++ [(0%nat, Notice (js "Copying the image...")
                            :: Fetch (js "app://a.png") :: rest)].
Proof.
  refine (@C9_later_touch_defeats_the_reset
            (hostWith (inr (blobOf "image/png" [137%N])) (inl []) None true None)
            (initial 4) [] [] []
            {| src := js "app://a.png" |} {| src := js "app://b.png" |}
            (ImgTarget {| src := js "app://a.png" |}) 1000 1500
            eq_refl _ eq_refl).
  discriminate.
Defined.
